(** * ERP testing backend: the entity store, its JSON fields and its handlers

    A shallow embedding of [server.js] (the Express and sqlite3 monolith) and
    of the users router of the TypeScript server, [src/routes/users.ts].

    - [Str], [Js], [JsRuntime]: the strings and values of the run time and
      the two built-ins the handlers call, [JSON.parse] and [JSON.stringify];
      [StdJson] is a reference implementation of both.
    - [safeJsonParse]: the JSON-field codec.
    - [Sql]: the statements the handlers issue, as functions on tables:
      [Sql.update], [Sql.insert], [Sql.delete], [Sql.select].  A failing
      statement is [None] and changes nothing.
    - [Schema], [Store]: the tables as [initializeDatabase] creates them.
    - The handlers: a function from the request and the store to the
      response and the store.

    Conventions.
    - A JavaScript string is a [string]; its characters are the code units
      below 256.
    - A number is an exact decimal [m / 10^k]; the rounding of doubles is
      not represented.
    - [CURRENT_TIMESTAMP] is the argument [now] of a handler.
    - The callbacks of one handler run in program order, and the handlers
      of two requests do not interleave. *)

From Stdlib Require Import ZArith Ascii String List Bool Lia DecimalString.
From stdpp Require Import gmap strings list fin_maps.

Local Open Scope string_scope.
Local Open Scope Z_scope.

(* ===================================================================== *)
(** ** Strings of the run time *)
(* ===================================================================== *)

Module Str.

Definition LF : ascii := Ascii.ascii_of_nat 10.
Definition comma : ascii := Ascii.ascii_of_nat 44.
Definition space : ascii := Ascii.ascii_of_nat 32.
Definition dquote : ascii := Ascii.ascii_of_nat 34.
Definition backslash : ascii := Ascii.ascii_of_nat 92.

Definition code (c : ascii) : Z := Z.of_N (N_of_ascii c).

Definition chars (s : string) : list ascii := list_ascii_of_string s.
Definition of_chars (l : list ascii) : string := string_of_list_ascii l.

(** [String.prototype.includes] for a one-character needle. *)
Fixpoint includes (c : ascii) (s : string) : bool :=
  match s with
  | EmptyString => false
  | String d s' => if Ascii.eqb c d then true else includes c s'
  end.

(** [String.prototype.split] on a character class: every separator
    character ends a piece, so [n] separators give [n + 1] pieces. *)
Fixpoint split_on (sep : ascii -> bool) (s : string) : list string :=
  match s with
  | EmptyString => [EmptyString]
  | String c s' =>
      if sep c then EmptyString :: split_on sep s'
      else match split_on sep s' with
           | piece :: rest => String c piece :: rest
           | [] => [String c EmptyString]
           end
  end.

(** White space and line terminators of ECMAScript within the code units
    of the model: TAB, LF, VT, FF, CR, SP and NBSP. *)
Definition is_js_space (c : ascii) : bool :=
  let n := code c in
  ((9 <=? n) && (n <=? 13)) || (n =? 32) || (n =? 160).

Fixpoint drop_while (p : ascii -> bool) (l : list ascii) : list ascii :=
  match l with
  | c :: l' => if p c then drop_while p l' else l
  | [] => []
  end.

Definition strip (p : ascii -> bool) (s : string) : string :=
  of_chars (rev (drop_while p (rev (drop_while p (chars s))))).

(** [String.prototype.trim]. *)
Definition trim (s : string) : string := strip is_js_space s.

Definition nonempty (s : string) : bool :=
  match s with EmptyString => false | _ => true end.

Definition map_chars (f : ascii -> ascii) (s : string) : string :=
  of_chars (map f (chars s)).

Definition upper_ascii (c : ascii) : ascii :=
  let n := code c in
  if (97 <=? n) && (n <=? 122) then Ascii.ascii_of_N (Z.to_N (n - 32)) else c.

Definition lower_ascii (c : ascii) : ascii :=
  let n := code c in
  if (65 <=? n) && (n <=? 90) then Ascii.ascii_of_N (Z.to_N (n + 32)) else c.

(** [String.prototype.toLowerCase] on the code units of the model: the
    ASCII letters and the Latin-1 capitals (0xC0-0xDE but 0xD7). *)
Definition lower_latin1 (c : ascii) : ascii :=
  let n := code c in
  if ((65 <=? n) && (n <=? 90))
     || ((192 <=? n) && (n <=? 222) && negb (n =? 215))
  then Ascii.ascii_of_N (Z.to_N (n + 32)) else c.

Definition toLowerCase (s : string) : string := map_chars lower_latin1 s.

Definition of_Z (z : Z) : string := NilZero.string_of_int (Z.to_int z).

Fixpoint join (sep : string) (l : list string) : string :=
  match l with
  | [] => EmptyString
  | [x] => x
  | x :: rest => x +:+ sep +:+ join sep rest
  end.

End Str.

(* ===================================================================== *)
(** ** Values of the run time *)
(* ===================================================================== *)

(** What [JSON.parse] can return and what a request body can hold.  A
    variable that may be [undefined] is an [option JsValue]. *)
#[warnings="-register-all"]
Inductive JsValue : Type :=
| JNull
| JBool (b : bool)
| JNum (m : Z) (k : nat)          (* the number m / 10^k *)
| JStr (s : string)
| JArr (items : list JsValue)
| JObj (fields : list (string * JsValue)).

Definition jint (z : Z) : JsValue := JNum z 0.

Module Js.

(** Drop the trailing zeros of the fraction. *)
Fixpoint canon (m : Z) (k : nat) : Z * nat :=
  match k with
  | O => (m, O)
  | S k' => if (m mod 10 =? 0) then canon (m / 10) k' else (m, k)
  end.

(** [ToBoolean]. *)
Definition truthy (v : JsValue) : bool :=
  match v with
  | JNull => false
  | JBool b => b
  | JNum m _ => negb (m =? 0)
  | JStr s => Str.nonempty s
  | JArr _ | JObj _ => true
  end.

Definition truthy_opt (v : option JsValue) : bool :=
  match v with Some x => truthy x | None => false end.

(** [typeof v === 'object']: arrays, objects and [null]. *)
Definition is_object (v : JsValue) : bool :=
  match v with JNull | JArr _ | JObj _ => true | _ => false end.

Definition is_string (v : JsValue) : bool :=
  match v with JStr _ => true | _ => false end.

(** [Array.isArray]. *)
Definition isArray (v : JsValue) : bool :=
  match v with JArr _ => true | _ => false end.

(** [a === b] when at least one side is a primitive read from a row.
    Arrays and objects are equal only to themselves, and a value parsed
    from a request is never the object of another expression, so they
    compare unequal here. *)
Definition strict_eq (a b : JsValue) : bool :=
  match a, b with
  | JNull, JNull => true
  | JBool x, JBool y => Bool.eqb x y
  | JNum m k, JNum m' k' => (m * 10 ^ Z.of_nat k' =? m' * 10 ^ Z.of_nat k)
  | JStr s, JStr t => String.eqb s t
  | _, _ => false
  end.

(** [a !== b] where [a] may be [undefined]; [b] never is. *)
Definition strict_neq_opt (a : option JsValue) (b : JsValue) : bool :=
  match a with
  | None => true
  | Some x => negb (strict_eq x b)
  end.

Definition digits_of (z : Z) : string := Str.of_Z (Z.abs z).

Fixpoint zeros (n : nat) : string :=
  match n with O => EmptyString | S n' => String "0" (zeros n') end.

Definition strip_trailing_zeros (s : string) : string :=
  Str.of_chars (rev (Str.drop_while (Ascii.eqb "0") (rev (Str.chars s)))).

Definition exp_form (ds : string) (e : Z) : string :=
  match strip_trailing_zeros ds with
  | String d EmptyString => String d EmptyString
  | String d rest => String d ("." +:+ rest)
  | EmptyString => "0"
  end +:+ "e" +:+ (if 0 <=? e then "+" else "-") +:+ Str.of_Z (Z.abs e).

(** [Number::toString] for an exact decimal. *)
Definition num_to_string (m : Z) (k : nat) : string :=
  let '(m, k) := canon m k in
  let sign := if m <? 0 then "-" else "" in
  let ds := digits_of m in
  let len := Z.of_nat (String.length ds) in
  let n := len - Z.of_nat k in          (* digits before the point *)
  sign +:+
  match k with
  | O => if len <=? 21 then ds else exp_form ds (len - 1)
  | _ =>
      if 0 <? n then
        String.substring 0 (Z.to_nat n) ds +:+ "." +:+
        String.substring (Z.to_nat n) k ds
      else if (-6) <? n then "0." +:+ zeros (Z.to_nat (- n)) +:+ ds
      else exp_form ds (n - 1)
  end.

(** [String(v)]. *)
Fixpoint to_string (v : JsValue) : string :=
  match v with
  | JNull => "null"
  | JBool true => "true"
  | JBool false => "false"
  | JNum m k => num_to_string m k
  | JStr s => s
  | JArr items =>
      Str.join ","
        (map (fun x => match x with JNull => "" | _ => to_string x end) items)
  | JObj _ => "[object Object]"
  end.

End Js.

(** The two built-ins the handlers call.  [JSON_parse] is [None] where
    [JSON.parse] throws. *)
Class JsRuntime := {
  JSON_parse : string -> option JsValue;
  JSON_stringify : JsValue -> string
}.

(* ===================================================================== *)
(** ** The JSON-field codec: [safeJsonParse] *)
(* ===================================================================== *)

Section Codec.
Context `{RT : JsRuntime}.

Definition is_list_sep (c : ascii) : bool :=
  Ascii.eqb c Str.comma || Ascii.eqb c Str.LF.

(** [str.split(/[,\n]/).map(s => s.trim()).filter(s => s)] *)
Definition split_items (str : string) : list string :=
  filter (fun s => Is_true (Str.nonempty s))
         (map Str.trim (Str.split_on is_list_sep str)).

(** The [catch] block (logging left out). *)
Definition safeJsonParse_catch (str defaultValue : JsValue) : JsValue :=
  match str with
  | JStr s =>
      if Js.isArray defaultValue then
        if Str.includes Str.comma s || Str.includes Str.LF s
        then JArr (map JStr (split_items s))
        else JArr [JStr s]
      else defaultValue
  | _ => defaultValue
  end.

Definition safeJsonParse (str defaultValue : JsValue) : JsValue :=
  if negb (Js.truthy str)
     || Js.strict_eq str (JStr "")
     || Js.strict_eq str (JStr "null")
     || Js.strict_eq str (JStr "undefined")
  then defaultValue
  else if Js.is_object str then str
  else match JSON_parse (Js.to_string str) with
       | Some v => v
       | None => safeJsonParse_catch str defaultValue
       end.

End Codec.

(* ===================================================================== *)
(** ** A reference run time: the JSON grammar (ECMA-404) *)
(* ===================================================================== *)

Module StdJson.

Definition is_ws (c : ascii) : bool :=
  let n := Str.code c in (n =? 32) || (n =? 9) || (n =? 10) || (n =? 13).

Definition skip_ws (l : list ascii) : list ascii := Str.drop_while is_ws l.

Definition digit_val (c : ascii) : option Z :=
  let n := Str.code c in
  if (48 <=? n) && (n <=? 57) then Some (n - 48) else None.

Definition hex_val (c : ascii) : option Z :=
  let n := Str.code c in
  if (48 <=? n) && (n <=? 57) then Some (n - 48)
  else if (65 <=? n) && (n <=? 70) then Some (n - 55)
  else if (97 <=? n) && (n <=? 102) then Some (n - 87)
  else None.

(** The longest prefix of digits: their value, their count, the rest. *)
Fixpoint take_digits (acc : Z) (cnt : nat) (l : list ascii)
  : Z * nat * list ascii :=
  match l with
  | c :: l' =>
      match digit_val c with
      | Some d => take_digits (acc * 10 + d) (S cnt) l'
      | None => (acc, cnt, l)
      end
  | [] => (acc, cnt, l)
  end.

(** number = [-] int [frac] [exp]; an int has no leading zero. *)
Definition parse_number (l : list ascii) : option (JsValue * list ascii) :=
  let '(neg, l1) :=
    match l with
    | c :: r => if Ascii.eqb c "-" then (true, r) else (false, l)
    | [] => (false, l)
    end in
  let '(ip, icnt, l2) := take_digits 0 0 l1 in
  let leading_zero :=
    match l1 with
    | c :: _ => Ascii.eqb c "0" && (1 <? icnt)%nat
    | [] => false
    end in
  if (icnt =? 0)%nat || leading_zero then None else
  let frac :=
    match l2 with
    | c :: r =>
        if Ascii.eqb c "." then
          let '(fp, fcnt, r') := take_digits ip 0 r in
          if (fcnt =? 0)%nat then None else Some (fp, fcnt, r')
        else Some (ip, O, l2)
    | [] => Some (ip, O, l2)
    end in
  match frac with
  | None => None
  | Some (mant, fcnt, l3) =>
      let expo :=
        match l3 with
        | c :: r =>
            if Ascii.eqb c "e" || Ascii.eqb c "E" then
              let '(eneg, r1) :=
                match r with
                | d :: r' =>
                    if Ascii.eqb d "-" then (true, r')
                    else if Ascii.eqb d "+" then (false, r')
                    else (false, r)
                | [] => (false, r)
                end in
              let '(ev, ecnt, r2) := take_digits 0 0 r1 in
              if (ecnt =? 0)%nat then None
              else Some (if eneg then - ev else ev, r2)
            else Some (0, l3)
        | [] => Some (0, l3)
        end in
      match expo with
      | None => None
      | Some (ev, l4) =>
          let m := if neg then - mant else mant in
          let shift := ev - Z.of_nat fcnt in
          let '(m', k') :=
            if 0 <=? shift then (m * 10 ^ shift, O)
            else Js.canon m (Z.to_nat (- shift)) in
          Some (JNum m' k', l4)
      end
  end.

(** The characters of a string after its opening quote, up to the
    closing one.  An escape that names a code unit above 255 has no
    counterpart among the strings of the model and is refused. *)
Fixpoint parse_string_body (fuel : nat) (l : list ascii)
  : option (string * list ascii) :=
  match fuel with
  | O => None
  | S fuel' =>
      match l with
      | [] => None
      | c :: r =>
          if Ascii.eqb c Str.dquote then Some (EmptyString, r)
          else if Ascii.eqb c Str.backslash then
            match r with
            | e :: r1 =>
                let simple (x : ascii) :=
                  match parse_string_body fuel' r1 with
                  | Some (s, rest) => Some (String x s, rest)
                  | None => None
                  end in
                if Ascii.eqb e Str.dquote then simple Str.dquote
                else if Ascii.eqb e Str.backslash then simple Str.backslash
                else if Ascii.eqb e "/" then simple "/"%char
                else if Ascii.eqb e "b" then simple (Ascii.ascii_of_nat 8)
                else if Ascii.eqb e "f" then simple (Ascii.ascii_of_nat 12)
                else if Ascii.eqb e "n" then simple (Ascii.ascii_of_nat 10)
                else if Ascii.eqb e "r" then simple (Ascii.ascii_of_nat 13)
                else if Ascii.eqb e "t" then simple (Ascii.ascii_of_nat 9)
                else if Ascii.eqb e "u" then
                  match r1 with
                  | h1 :: h2 :: h3 :: h4 :: r2 =>
                      match hex_val h1, hex_val h2, hex_val h3, hex_val h4 with
                      | Some a, Some b, Some c', Some d =>
                          let n := ((a * 16 + b) * 16 + c') * 16 + d in
                          if n <? 256 then
                            match parse_string_body fuel' r2 with
                            | Some (s, rest) =>
                                Some (String (Ascii.ascii_of_N (Z.to_N n)) s, rest)
                            | None => None
                            end
                          else None
                      | _, _, _, _ => None
                      end
                  | _ => None
                  end
                else None
            | [] => None
            end
          else if Str.code c <? 32 then None
          else match parse_string_body fuel' r with
               | Some (s, rest) => Some (String c s, rest)
               | None => None
               end
      end
  end.

Definition expect (word : string) (v : JsValue) (l : list ascii)
  : option (JsValue * list ascii) :=
  let w := Str.chars word in
  if decide (take (length w) l = w) then Some (v, drop (length w) l) else None.

(** An object keeps one entry per name: a repeated name keeps the place
    of its first occurrence and the value of its last. *)
Fixpoint set_field (k : string) (v : JsValue) (fs : list (string * JsValue))
  : list (string * JsValue) :=
  match fs with
  | [] => [(k, v)]
  | (k', v') :: rest =>
      if String.eqb k k' then (k, v) :: rest else (k', v') :: set_field k v rest
  end.

Section Elements.
Variable value : list ascii -> option (JsValue * list ascii).

(** After an element: [,] and another element, or [close]. *)
Fixpoint parse_elems (fuel : nat) (acc : list JsValue) (l : list ascii)
  : option (JsValue * list ascii) :=
  match fuel with
  | O => None
  | S fuel' =>
      match value l with
      | None => None
      | Some (v, r) =>
          match skip_ws r with
          | c :: r' =>
              if Ascii.eqb c "," then parse_elems fuel' (acc ++ [v]) r'
              else if Ascii.eqb c "]" then Some (JArr (acc ++ [v]), r')
              else None
          | [] => None
          end
      end
  end.

Fixpoint parse_members (fuel : nat) (acc : list (string * JsValue))
  (l : list ascii) : option (JsValue * list ascii) :=
  match fuel with
  | O => None
  | S fuel' =>
      match skip_ws l with
      | q :: r =>
          if Ascii.eqb q Str.dquote then
            match parse_string_body (length r) r with
            | Some (k, r1) =>
                match skip_ws r1 with
                | c :: r2 =>
                    if Ascii.eqb c ":" then
                      match value r2 with
                      | Some (v, r3) =>
                          match skip_ws r3 with
                          | d :: r4 =>
                              if Ascii.eqb d "," then
                                parse_members fuel' (set_field k v acc) r4
                              else if Ascii.eqb d "}" then
                                Some (JObj (set_field k v acc), r4)
                              else None
                          | [] => None
                          end
                      | None => None
                      end
                    else None
                | [] => None
                end
            | None => None
            end
          else None
      | [] => None
      end
  end.
End Elements.

Fixpoint parse_value (fuel : nat) (l : list ascii)
  : option (JsValue * list ascii) :=
  match fuel with
  | O => None
  | S fuel' =>
      match skip_ws l with
      | [] => None
      | c :: r =>
          if Ascii.eqb c "[" then
            match skip_ws r with
            | d :: r' =>
                if Ascii.eqb d "]" then Some (JArr [], r')
                else parse_elems (parse_value fuel') (length r) [] r
            | [] => None
            end
          else if Ascii.eqb c "{" then
            match skip_ws r with
            | d :: r' =>
                if Ascii.eqb d "}" then Some (JObj [], r')
                else parse_members (parse_value fuel') (length r) [] r
            | [] => None
            end
          else if Ascii.eqb c Str.dquote then
            match parse_string_body (length r) r with
            | Some (s, rest) => Some (JStr s, rest)
            | None => None
            end
          else if Ascii.eqb c "t" then expect "true" (JBool true) (c :: r)
          else if Ascii.eqb c "f" then expect "false" (JBool false) (c :: r)
          else if Ascii.eqb c "n" then expect "null" JNull (c :: r)
          else parse_number (c :: r)
      end
  end.

(** [JSON.parse]: one value, white space around it, nothing else. *)
Definition parse (s : string) : option JsValue :=
  let l := Str.chars s in
  match parse_value (S (length l)) l with
  | Some (v, rest) =>
      match skip_ws rest with
      | [] => Some v
      | _ => None
      end
  | None => None
  end.

Definition hex_digit (n : Z) : ascii :=
  Ascii.ascii_of_N (Z.to_N (if n <? 10 then 48 + n else 87 + n)).

(** The quoted form of one character of a string. *)
Definition quote_char (c : ascii) : string :=
  let n := Str.code c in
  if n =? 34 then String Str.backslash (String Str.dquote "")
  else if n =? 92 then String Str.backslash (String Str.backslash "")
  else if n =? 8 then "\b"
  else if n =? 12 then "\f"
  else if n =? 10 then "\n"
  else if n =? 13 then "\r"
  else if n =? 9 then "\t"
  else if n <? 32 then
    "\u00" +:+ String (hex_digit (n / 16)) (String (hex_digit (n mod 16)) "")
  else String c "".

Definition quote (s : string) : string :=
  String Str.dquote
    (String.concat "" (map quote_char (Str.chars s)) +:+ String Str.dquote "").

(** [JSON.stringify] without indentation. *)
Fixpoint stringify (v : JsValue) : string :=
  match v with
  | JNull => "null"
  | JBool true => "true"
  | JBool false => "false"
  | JNum m k => Js.num_to_string m k
  | JStr s => quote s
  | JArr items => "[" +:+ Str.join "," (map stringify items) +:+ "]"
  | JObj fields =>
      "{" +:+
      Str.join "," (map (fun kv => quote (fst kv) +:+ ":" +:+ stringify (snd kv))
                        fields)
      +:+ "}"
  end.

#[export] Instance runtime : JsRuntime :=
  {| JSON_parse := parse; JSON_stringify := stringify |}.

End StdJson.

(* ===================================================================== *)
(** ** The decode contract, in the words of the specification *)
(* ===================================================================== *)

Section DecodeContract.
Context `{RT : JsRuntime}.

(** A stored text column: [None] is SQL NULL. *)
Definition of_raw (raw : option string) : JsValue :=
  match raw with
  | None => JNull
  | Some s => JStr s
  end.

Definition has_delimiter (raw : string) : bool :=
  Str.includes Str.comma raw || Str.includes Str.LF raw.

(** "split raw on comma or newline into trimmed non-empty tokens". *)
Definition tokens (raw : string) : list string :=
  filter (fun t => t <> EmptyString)
         (map Str.trim (Str.split_on is_list_sep raw)).

(** "if no delimiter is found, wrap the whole string as a single-element
    list". *)
Definition recover (raw : string) : JsValue :=
  if has_delimiter raw then JArr (map JStr (tokens raw)) else JArr [JStr raw].

(** The contract with the literals it names: empty, null, "null". *)
Definition decode_contract (raw : option string) (fallback : JsValue) : JsValue :=
  match raw with
  | None => fallback
  | Some s =>
      if String.eqb s "" || String.eqb s "null" then fallback
      else match JSON_parse s with
           | Some v => v
           | None => if Js.isArray fallback then recover s else fallback
           end
  end.

(** The contract with the fourth literal the code also sends to the
    fallback: "undefined". *)
Definition decode_amended (raw : option string) (fallback : JsValue) : JsValue :=
  match raw with
  | None => fallback
  | Some s =>
      if String.eqb s "" || String.eqb s "null" || String.eqb s "undefined"
      then fallback
      else match JSON_parse s with
           | Some v => v
           | None => if Js.isArray fallback then recover s else fallback
           end
  end.

End DecodeContract.

(* ===================================================================== *)
(** ** The relational layer: values, rows, schemas and statements *)
(* ===================================================================== *)

(** A stored value: NULL, a number (integer or real, as an exact decimal)
    or text.  BLOBs do not occur in the tables below. *)
Inductive SqlValue : Type :=
| SNull
| SNum (m : Z) (k : nat)
| SText (s : string).

#[export] Instance SqlValue_eq_dec : EqDecision SqlValue.
Proof. solve_decision. Defined.

Definition sint (z : Z) : SqlValue := SNum z 0.

(** The column affinities of SQLite that the schemas use.  BOOLEAN, DATE and
    DATETIME are declared types with NUMERIC affinity. *)
Inductive Affinity : Type := AffText | AffNumeric.

Inductive Default : Type :=
| DefVal (v : SqlValue)
| DefNow.                      (* DEFAULT CURRENT_TIMESTAMP *)

Record Column : Type := mkColumn {
  col_name : string;
  col_aff : Affinity;
  col_notnull : bool;
  col_default : Default;
  col_check : SqlValue -> bool     (* the CHECK constraint of the column *)
}.

Record Schema : Type := mkSchema {
  sch_cols : list Column;
  sch_unique : list string;        (* UNIQUE and PRIMARY KEY columns *)
  sch_auto : option string         (* INTEGER PRIMARY KEY AUTOINCREMENT *)
}.

(** A row maps each column name, as the schema spells it, to a value; a
    table is its rows in rowid order. *)
Abbreviation Row := (gmap string SqlValue) (only parsing).
Abbreviation Table := (list (gmap string SqlValue)) (only parsing).

Module Sql.

Definition get (r : gmap string SqlValue) (c : string) : SqlValue :=
  default SNull (r !! c).

(** Values a statement binds, as node-sqlite3 and better-sqlite3 bind them:
    a boolean is 0 or 1, an array or object is its [String()], and an
    [undefined] parameter stays unbound, which reads as NULL. *)
Definition bind (v : JsValue) : SqlValue :=
  match v with
  | JNull => SNull
  | JBool b => sint (if b then 1 else 0)
  | JNum m k => let '(m', k') := Js.canon m k in SNum m' k'
  | JStr s => SText s
  | JArr _ | JObj _ => SText (Js.to_string v)
  end.

Definition bind_opt (v : option JsValue) : SqlValue :=
  match v with Some x => bind x | None => SNull end.

(** A column as the driver hands it to the callback. *)
Definition to_js (v : SqlValue) : JsValue :=
  match v with
  | SNull => JNull
  | SNum m k => JNum m k
  | SText s => JStr s
  end.

Definition is_sql_space (c : ascii) : bool :=
  let n := Str.code c in ((9 <=? n) && (n <=? 13)) || (n =? 32).

(** Text that reads as a number: white space, a sign, digits with or
    without a fraction, an exponent, white space. *)
Definition numeric_literal (s : string) : option (Z * nat) :=
  let l := Str.drop_while is_sql_space (Str.chars s) in
  let '(neg, l1) :=
    match l with
    | c :: r =>
        if Ascii.eqb c "-" then (true, r)
        else if Ascii.eqb c "+" then (false, r) else (false, l)
    | [] => (false, l)
    end in
  let '(ip, icnt, l2) := StdJson.take_digits 0 0 l1 in
  let '(mant, fcnt, l3) :=
    match l2 with
    | c :: r => if Ascii.eqb c "." then StdJson.take_digits ip 0 r
                else (ip, O, l2)
    | [] => (ip, O, l2)
    end in
  if (icnt + fcnt =? 0)%nat then None else
  let expo :=
    match l3 with
    | c :: r =>
        if Ascii.eqb c "e" || Ascii.eqb c "E" then
          let '(eneg, r1) :=
            match r with
            | d :: r' =>
                if Ascii.eqb d "-" then (true, r')
                else if Ascii.eqb d "+" then (false, r') else (false, r)
            | [] => (false, r)
            end in
          let '(ev, ecnt, r2) := StdJson.take_digits 0 0 r1 in
          if (ecnt =? 0)%nat then None
          else Some (if eneg then - ev else ev, r2)
        else Some (0, l3)
    | [] => Some (0, l3)
    end in
  match expo with
  | None => None
  | Some (ev, l4) =>
      match Str.drop_while is_sql_space l4 with
      | [] =>
          let m := if neg then - mant else mant in
          let shift := ev - Z.of_nat fcnt in
          Some (if 0 <=? shift then (m * 10 ^ shift, O)
                else Js.canon m (Z.to_nat (- shift)))
      | _ => None
      end
  end.

(** What a column stores of a value, by its affinity: a TEXT column keeps
    a number as its digits, a NUMERIC column keeps text that reads as a
    number as that number. *)
Definition coerce (a : Affinity) (v : SqlValue) : SqlValue :=
  match a, v with
  | AffText, SNum m k => SText (Js.num_to_string m k)
  | AffNumeric, SText s =>
      match numeric_literal s with
      | Some (m, k) => SNum m k
      | None => v
      end
  | _, _ => v
  end.

(** [a = b] holds (is neither false nor NULL). *)
Definition eqv (a b : SqlValue) : bool :=
  match a, b with
  | SNum m k, SNum m' k' => (m * 10 ^ Z.of_nat k' =? m' * 10 ^ Z.of_nat k)
  | SText s, SText t => String.eqb s t
  | _, _ => false
  end.

(** [a != b] holds. *)
Definition nev (a b : SqlValue) : bool :=
  match a, b with
  | SNull, _ | _, SNull => false
  | _, _ => negb (eqv a b)
  end.

Definition is_null (v : SqlValue) : bool :=
  match v with SNull => true | _ => false end.

(** Identifiers of SQL match without regard to the case of ASCII letters. *)
Definition fold_case (s : string) : string := Str.map_chars Str.lower_ascii s.

Definition ident_eq (a b : string) : bool :=
  String.eqb (fold_case a) (fold_case b).

Definition column (sch : Schema) (name : string) : option Column :=
  find (fun c => ident_eq (col_name c) name) (sch_cols sch).

Definition affinity_of (sch : Schema) (name : string) : Affinity :=
  match column sch name with
  | Some c => col_aff c
  | None => AffNumeric
  end.

(** [WHERE col = ?] and [WHERE col != ?]: the parameter takes the affinity
    of the column before the comparison. *)
Definition where_eq (sch : Schema) (col : string) (param : SqlValue)
  (r : gmap string SqlValue) : bool :=
  eqv (get r col) (coerce (affinity_of sch col) param).

Definition where_ne (sch : Schema) (col : string) (param : SqlValue)
  (r : gmap string SqlValue) : bool :=
  nev (get r col) (coerce (affinity_of sch col) param).

(** The assignments of a SET clause, each name resolved to its column and
    each value coerced; [None] when a name is no column of the table.  A
    name is an identifier here: SQL text passed in place of a name is not
    represented. *)
Fixpoint resolve_sets (sch : Schema) (sets : list (string * SqlValue))
  : option (list (string * SqlValue)) :=
  match sets with
  | [] => Some []
  | (name, v) :: rest =>
      match column sch name, resolve_sets sch rest with
      | Some c, Some rs => Some ((col_name c, coerce (col_aff c) v) :: rs)
      | _, _ => None
      end
  end.

(** Assignments apply left to right, so the rightmost one to a column is
    the one that stays. *)
Definition apply_sets (rs : list (string * SqlValue)) (r : gmap string SqlValue)
  : gmap string SqlValue :=
  fold_left (fun acc cv => <[fst cv := snd cv]> acc) rs r.

Definition col_ok (c : Column) (v : SqlValue) : bool :=
  (negb (col_notnull c) || negb (is_null v)) && (is_null v || col_check c v).

(** NOT NULL and CHECK on the columns a statement writes. *)
Definition written_ok (sch : Schema) (rs : list (string * SqlValue))
  (r : gmap string SqlValue) : bool :=
  forallb (fun cv =>
             match column sch (fst cv) with
             | Some c => col_ok c (get r (fst cv))
             | None => false
             end) rs.

Definition count_where (p : gmap string SqlValue -> bool) (t : Table) : nat :=
  length (filter (fun r => Is_true (p r)) t).

(** UNIQUE on the columns a statement writes: no two rows of the new table
    share a non-NULL value of such a column with a written row. *)
Definition unique_ok (sch : Schema) (written : list string)
  (r : gmap string SqlValue) (t : Table) : bool :=
  forallb (fun u =>
             negb (existsb (ident_eq u) written)
             || is_null (get r u)
             || (count_where (fun r' => eqv (get r' u) (get r u)) t <=? 1)%nat)
          (sch_unique sch).

(** [UPDATE t SET sets WHERE p]: [None] is an SQL error, otherwise the new
    table and [this.changes], the number of rows the WHERE clause matched.
    A failing statement changes nothing. *)
Definition update (sch : Schema) (p : gmap string SqlValue -> bool)
  (sets : list (string * SqlValue)) (t : Table) : option (Table * nat) :=
  match resolve_sets sch sets with
  | None => None
  | Some rs =>
      let t' := map (fun r => if p r then apply_sets rs r else r) t in
      let hits := filter (fun r => Is_true (p r)) t in
      if forallb (fun r => written_ok sch rs (apply_sets rs r)
                           && unique_ok sch (map fst rs) (apply_sets rs r) t')
                 hits
      then Some (t', length hits)
      else None
  end.

(** [DELETE FROM t WHERE p], with the number of rows removed. *)
Definition delete (p : gmap string SqlValue -> bool) (t : Table) : Table * nat :=
  (filter (fun r => ~ Is_true (p r)) t, count_where p t).

(** [SELECT * FROM t WHERE p], and its first row for [db.get]. *)
Definition select (p : gmap string SqlValue -> bool) (t : Table) : Table :=
  filter (fun r => Is_true (p r)) t.

Definition select_one (p : gmap string SqlValue -> bool) (t : Table)
  : option (gmap string SqlValue) :=
  head (select p t).

Definition next_rowid (key : string) (t : Table) : Z :=
  1 + fold_right Z.max 0
        (map (fun r => match get r key with SNum m O => m | _ => 0 end) t).

Definition default_value (now : string) (d : Default) : SqlValue :=
  match d with
  | DefVal v => v
  | DefNow => SText now
  end.

(** The row an INSERT builds: a listed column takes its value, any other
    its default; the AUTOINCREMENT key takes the next rowid when it is not
    given.  Rows are removed only from tables whose key is not generated,
    so the next rowid is one more than the largest in the table. *)
Definition new_row (sch : Schema) (now : string) (rs : list (string * SqlValue))
  (t : Table) : gmap string SqlValue :=
  let given := apply_sets rs ∅ in
  fold_left
    (fun acc c =>
       let v :=
         match given !! col_name c with
         | Some v => v
         | None => coerce (col_aff c) (default_value now (col_default c))
         end in
       let v :=
         if bool_decide (sch_auto sch = Some (col_name c)) && is_null v
         then sint (next_rowid (col_name c) t) else v in
       <[col_name c := v]> acc)
    (sch_cols sch) ∅.

(** [INSERT INTO t (cols) VALUES (?)]: [None] is an SQL error. *)
Definition insert (sch : Schema) (now : string) (vals : list (string * SqlValue))
  (t : Table) : option Table :=
  match resolve_sets sch vals with
  | None => None
  | Some rs =>
      let r := new_row sch now rs t in
      let t' := (t ++ [r])%list in
      if forallb (fun c => col_ok c (get r (col_name c))) (sch_cols sch)
         && unique_ok sch (map col_name (sch_cols sch)) r t'
      then Some t'
      else None
  end.

End Sql.

(* ===================================================================== *)
(** ** The tables of [server.js] *)
(* ===================================================================== *)

Module Schema.

Definition any (v : SqlValue) : bool := true.

Definition one_of (allowed : list string) (v : SqlValue) : bool :=
  match v with
  | SText s => existsb (String.eqb s) allowed
  | _ => false
  end.

(** [CHECK(progress_percentage >= 0 AND progress_percentage <= 100)]; text
    sorts after every number, so it fails the upper bound. *)
Definition percentage (v : SqlValue) : bool :=
  match v with
  | SNum m k => (0 <=? m) && (m <=? 100 * 10 ^ Z.of_nat k)
  | _ => false
  end.

Definition text (name : string) : Column :=
  mkColumn name AffText false (DefVal SNull) any.
Definition num (name : string) : Column :=
  mkColumn name AffNumeric false (DefVal SNull) any.
Definition text_nn (name : string) : Column :=
  mkColumn name AffText true (DefVal SNull) any.
Definition num_nn (name : string) : Column :=
  mkColumn name AffNumeric true (DefVal SNull) any.
Definition text_def (name dflt : string) : Column :=
  mkColumn name AffText false (DefVal (SText dflt)) any.
Definition num_def (name : string) (dflt : Z) : Column :=
  mkColumn name AffNumeric false (DefVal (sint dflt)) any.
Definition stamp (name : string) : Column :=
  mkColumn name AffNumeric false DefNow any.
Definition enum (name dflt : string) (allowed : list string) : Column :=
  mkColumn name AffText false (DefVal (SText dflt)) (one_of allowed).

Definition versions : Schema :=
  mkSchema
    [ num "id"; text_nn "version_id"; text_nn "version_number";
      text_nn "version_name"; text "description"; num "release_date";
      text_def "status" "active"; num_def "is_current" 0;
      text "features"; text "bug_fixes"; text "known_issues";
      text_nn "created_by"; stamp "created_at"; stamp "updated_at" ]
    [ "id"; "version_id" ] (Some "id").

Definition bug_statuses : list string :=
  [ "New"; "Triaged"; "Assigned"; "In Progress"; "Fixed"; "Ready for Test";
    "Verified"; "Closed"; "Reopened"; "Rejected" ].

(** The CHECK on [resolution] lists NULL among its values, so it is never
    false and constrains nothing. *)
Definition bugs : Schema :=
  mkSchema
    [ num "id"; text_nn "bug_id"; text_nn "title"; text "description";
      text "steps_to_reproduce"; text "expected_result"; text "actual_result";
      enum "priority" "P3" ["P1"; "P2"; "P3"; "P4"];
      enum "severity" "Minor" ["Critical"; "Major"; "Minor"; "Trivial"];
      text "category";
      enum "type" "Functional"
        ["Functional"; "UI"; "Performance"; "Security"; "Other"];
      enum "status" "New" bug_statuses;
      text "resolution";
      text "linked_tests"; text "related_bugs"; text "parent_bug_id";
      text "module_id"; text "session_id";
      text "reporter_id"; text "reporter_name"; text "reporter_email";
      text "assignee_id"; text "assignee_name"; text "assignee_email";
      text "verifier_id"; text "verifier_name"; text "verifier_email";
      text "environment";
      text "found_in_version"; text "fixed_in_version"; text "target_release";
      stamp "created_at"; stamp "updated_at"; num "resolved_at";
      num "verified_at";
      text "attachments"; text "tags"; num_def "is_deleted" 0 ]
    [ "id"; "bug_id" ] (Some "id").

Definition bug_history : Schema :=
  mkSchema
    [ num "id"; text_nn "bug_id"; text_nn "action"; text "field_name";
      text "old_value"; text "new_value"; text "changed_by_id";
      text "changed_by_name"; stamp "changed_at" ]
    [ "id" ] (Some "id").

Definition feature_statuses : list string :=
  [ "Planned"; "In Design"; "Ready for Dev"; "In Development"; "Code Review";
    "Ready for Test"; "In Testing"; "Test Failed"; "Completed"; "On Hold";
    "Cancelled" ].

(** [upcoming_features] with the two DATE columns of
    [add-date-columns-migration.sql]. *)
Definition upcoming_features : Schema :=
  mkSchema
    [ num "id"; text_nn "feature_id"; text_nn "title"; text "description";
      text "business_value"; text "user_story"; text "acceptance_criteria";
      enum "priority" "P3" ["P1"; "P2"; "P3"; "P4"];
      enum "feature_type" "Enhancement"
        ["New Feature"; "Enhancement"; "Improvement"; "Technical Debt";
         "Refactoring"];
      text "category";
      enum "complexity" "Medium" ["Low"; "Medium"; "High"; "Very High"];
      enum "status" "Planned" feature_statuses;
      text_nn "module_id"; text_nn "target_version";
      text "linked_tests"; text "related_features"; text "dependencies";
      text "blocks";
      text "creator_id"; text_nn "creator_name"; text "creator_email";
      text "owner_id"; text "owner_name"; text "owner_email";
      text "developer_id"; text "developer_name"; text "developer_email";
      text "tester_id"; text "tester_name"; text "tester_email";
      num "estimated_hours"; num "actual_hours";
      mkColumn "progress_percentage" AffNumeric false (DefVal (sint 0))
        percentage;
      text "technical_notes"; text "api_endpoints"; text "database_changes";
      text "dependencies_external";
      stamp "created_at"; stamp "updated_at"; num "started_at";
      num "completed_at"; num "released_at";
      text "attachments"; text "tags"; num_def "is_deleted" 0;
      num "start_date"; num "end_date" ]
    [ "id"; "feature_id" ] (Some "id").

Definition feature_history : Schema :=
  mkSchema
    [ num "id"; text_nn "feature_id"; text_nn "action"; text "field_name";
      text "old_value"; text "new_value"; text "changed_by_id";
      text_nn "changed_by_name"; stamp "changed_at" ]
    [ "id" ] (Some "id").

Definition users : Schema :=
  mkSchema
    [ text "id"; text_nn "email"; text_nn "password"; text_nn "name";
      text_def "role" "tester"; text_def "status" "active";
      stamp "created_at"; text "created_by"; num "last_login";
      stamp "updated_at" ]
    [ "id"; "email" ] None.

(** [custom_tests] with the column a later ALTER TABLE adds. *)
Definition custom_tests : Schema :=
  mkSchema
    [ num "id"; text_nn "test_id"; text_nn "title"; text "description";
      text_nn "module"; text "category"; text_def "priority" "Medium";
      text_nn "steps"; text_nn "expected_result"; text "prerequisites";
      text "test_data"; text_nn "created_by"; stamp "created_at";
      stamp "updated_at"; num_def "is_active" 1; text "tags";
      text_def "applicable_versions" "[]" ]
    [ "id"; "test_id" ] (Some "id").

End Schema.

(** The database of [server.js]: the tables the handlers below touch. *)
Record Store : Type := mkStore {
  versions : Table;
  bugs : Table;
  bug_history : Table;
  upcoming_features : Table;
  feature_history : Table;
  users : Table;
  custom_tests : Table;
  test_results : Table;
  test_sessions : Table
}.

Definition set_versions (t : Table) (st : Store) : Store :=
  mkStore t (bugs st) (bug_history st) (upcoming_features st)
    (feature_history st) (users st) (custom_tests st) (test_results st)
    (test_sessions st).
Definition set_bugs (t : Table) (st : Store) : Store :=
  mkStore (versions st) t (bug_history st) (upcoming_features st)
    (feature_history st) (users st) (custom_tests st) (test_results st)
    (test_sessions st).
Definition set_bug_history (t : Table) (st : Store) : Store :=
  mkStore (versions st) (bugs st) t (upcoming_features st)
    (feature_history st) (users st) (custom_tests st) (test_results st)
    (test_sessions st).
Definition set_upcoming_features (t : Table) (st : Store) : Store :=
  mkStore (versions st) (bugs st) (bug_history st) t
    (feature_history st) (users st) (custom_tests st) (test_results st)
    (test_sessions st).
Definition set_feature_history (t : Table) (st : Store) : Store :=
  mkStore (versions st) (bugs st) (bug_history st) (upcoming_features st)
    t (users st) (custom_tests st) (test_results st) (test_sessions st).
Definition set_users (t : Table) (st : Store) : Store :=
  mkStore (versions st) (bugs st) (bug_history st) (upcoming_features st)
    (feature_history st) t (custom_tests st) (test_results st)
    (test_sessions st).
Definition set_custom_tests (t : Table) (st : Store) : Store :=
  mkStore (versions st) (bugs st) (bug_history st) (upcoming_features st)
    (feature_history st) (users st) t (test_results st) (test_sessions st).

(* ===================================================================== *)
(** ** Requests and responses *)
(* ===================================================================== *)

(** [req.body]: the entries of the parsed object, in the order of
    [Object.keys]. *)
Abbreviation Body := (list (string * JsValue)) (only parsing).

(** [req.query]: the parameters given, each a string. *)
Abbreviation Query := (list (string * string)) (only parsing).

Module Req.

Fixpoint field {A : Type} (key : string) (b : list (string * A)) : option A :=
  match b with
  | [] => None
  | (k, v) :: rest => if String.eqb k key then Some v else field key rest
  end.

(** [delete updates.key] *)
Definition remove (key : string) (b : Body) : Body :=
  filter (fun kv => fst kv <> key) b.

(** [a || b] on a value that may be [undefined]. *)
Definition or_else (v : option JsValue) (dflt : JsValue) : JsValue :=
  match v with
  | Some x => if Js.truthy x then x else dflt
  | None => dflt
  end.

Definition mem (key : string) (keys : list string) : bool :=
  existsb (String.eqb key) keys.

End Req.

(** What [res.json] sends. *)
Inductive Payload : Type :=
| PError (msg : string)                                   (* { error } *)
| PSqlError                                   (* { error: err.message } *)
| PSuccess (msg : string) (extra : list (string * JsValue))
| PRow (r : gmap string JsValue)
| PRows (rs : list (gmap string JsValue))
| PBuckets (rows : list (SqlValue * nat)).

Record Response : Type := mkResponse {
  res_status : Z;
  res_body : Payload
}.

Definition ok (p : Payload) : Response := mkResponse 200 p.
Definition not_found (msg : string) : Response := mkResponse 404 (PError msg).
Definition bad_request (msg : string) : Response := mkResponse 400 (PError msg).
Definition sql_error : Response := mkResponse 500 PSqlError.

(** The rows of a response that carries rows. *)
Definition sent_rows (res : Response) : list (gmap string JsValue) :=
  match res_body res with
  | PRow r => [r]
  | PRows rs => rs
  | _ => []
  end.

(* ===================================================================== *)
(** ** Versions *)
(* ===================================================================== *)

Section Handlers.
Context `{RT : JsRuntime}.

(** [updates[key]] as the statement binds it: the columns named in
    [json_fields] take the JSON text of the value. *)
Definition bound_value (json_fields : list string) (key : string) (v : JsValue)
  : SqlValue :=
  if Req.mem key json_fields then SText (JSON_stringify v) else Sql.bind v.

(** The loop over [Object.keys(updates)] that fills [fields] and [values]:
    one assignment per key that is not in [skipped]. *)
Definition dynamic_sets (skipped json_fields : list string) (updates : Body)
  : list (string * SqlValue) :=
  flat_map
    (fun kv =>
       if Req.mem (fst kv) skipped then []
       else [(fst kv, bound_value json_fields (fst kv) (snd kv))])
    updates.

Definition is_empty {A : Type} (l : list A) : bool :=
  match l with [] => true | _ => false end.

Definition version_json_fields : list string :=
  ["features"; "bug_fixes"; "known_issues"].

(** [version_number.replace(/\./g, '_')] *)
Definition dots_to_underscores (s : string) : string :=
  Str.map_chars (fun c => if Ascii.eqb c "." then "_"%char else c) s.

(** [UPDATE versions SET is_current = 0, updated_at = CURRENT_TIMESTAMP]
    over the rows [p] selects. *)
Definition unset_current (now : string) (p : gmap string SqlValue -> bool)
  (t : Table) : option (Table * nat) :=
  Sql.update Schema.versions p
    [("is_current", sint 0); ("updated_at", SText now)] t.

(** [new Date().toISOString().split('T')[0]]: the date of [now]. *)
Definition today (now : string) : string := String.substring 0 10 now.

(** POST /api/versions.  [None] is the TypeError of [version_number.replace]
    on a body without a string [version_number]; Express answers it with
    500 and the store is untouched. *)
Definition post_version (now : string) (body : Body) (st : Store)
  : option Response * Store :=
  match Req.field "version_number" body with
  | Some (JStr version_number) =>
      let is_current := Js.truthy_opt (Req.field "is_current" body) in
      let version_id := "VER_" +:+ dots_to_underscores version_number in
      let json_or_empty (key : string) :=
        SText (JSON_stringify (Req.or_else (Req.field key body) (JArr []))) in
      let insert (t : Table) : option Response * Store :=
        match
          Sql.insert Schema.versions now
            [ ("version_id", SText version_id);
              ("version_number", SText version_number);
              ("version_name", Sql.bind_opt (Req.field "version_name" body));
              ("description",
               Sql.bind (Req.or_else (Req.field "description" body) (JStr "")));
              ("release_date",
               Sql.bind (Req.or_else (Req.field "release_date" body)
                                     (JStr (today now))));
              ("status",
               Sql.bind (Req.or_else (Req.field "status" body) (JStr "active")));
              ("is_current", sint (if is_current then 1 else 0));
              ("features", json_or_empty "features");
              ("bug_fixes", json_or_empty "bug_fixes");
              ("known_issues", json_or_empty "known_issues");
              ("created_by", Sql.bind_opt (Req.field "created_by" body)) ]
            t
        with
        | None => (Some sql_error, set_versions t st)
        | Some t' =>
            (Some (ok (PSuccess "Version created successfully"
                         [("version_id", JStr version_id);
                          ("id", jint (Sql.next_rowid "id" t))])),
             set_versions t' st)
        end in
      if is_current then
        match unset_current now (fun _ => true) (versions st) with
        | None => (Some sql_error, st)
        | Some (t, _) => insert t
        end
      else insert (versions st)
  | _ => (None, st)
  end.

(** PUT /api/versions/:version_id *)
Definition put_version (now : string) (version_id : string) (updates : Body)
  (st : Store) : Response * Store :=
  let update (t : Table) : Response * Store :=
    let sets :=
      dynamic_sets ["version_id"; "id"; "created_at"] version_json_fields
        updates in
    if is_empty sets then (bad_request "No fields to update", set_versions t st)
    else
      match
        Sql.update Schema.versions
          (Sql.where_eq Schema.versions "version_id" (SText version_id))
          (sets ++ [("updated_at", SText now)])%list t
      with
      | None => (sql_error, set_versions t st)
      | Some (t', O) => (not_found "Version not found", set_versions t' st)
      | Some (t', _) =>
          (ok (PSuccess "Version updated successfully" []), set_versions t' st)
      end in
  if Js.truthy_opt (Req.field "is_current" updates) then
    match
      unset_current now
        (Sql.where_ne Schema.versions "version_id" (SText version_id))
        (versions st)
    with
    | None => (sql_error, st)
    | Some (t, _) => update t
    end
  else update (versions st).

(** PUT /api/versions/:version_id/set-current *)
Definition put_version_set_current (now : string) (version_id : string)
  (st : Store) : Response * Store :=
  match unset_current now (fun _ => true) (versions st) with
  | None => (sql_error, st)
  | Some (t, _) =>
      match
        Sql.update Schema.versions
          (Sql.where_eq Schema.versions "version_id" (SText version_id))
          [("is_current", sint 1); ("updated_at", SText now)] t
      with
      | None => (sql_error, set_versions t st)
      | Some (t', O) => (not_found "Version not found", set_versions t' st)
      | Some (t', _) =>
          (ok (PSuccess "Current version updated successfully" []),
           set_versions t' st)
      end
  end.

(** The rows [GET /api/versions/current] can find: [is_current = 1]. *)
Definition is_current_row (r : gmap string SqlValue) : bool :=
  Sql.eqv (Sql.get r "is_current") (sint 1).

Definition current_count (st : Store) : nat :=
  Sql.count_where is_current_row (versions st).

End Handlers.

(* ===================================================================== *)
(** ** Bugs *)
(* ===================================================================== *)

Section BugHandlers.
Context `{RT : JsRuntime}.

Definition bug_json_fields : list string :=
  ["steps_to_reproduce"; "linked_tests"; "related_bugs"; "environment";
   "tags"; "attachments"].

(** [row[key]] in the callback: [undefined] when the row has no such
    property. *)
Definition row_prop (r : gmap string SqlValue) (key : string) : option JsValue :=
  Sql.to_js <$> r !! key.

(** The value the loop of PUT /api/bugs/:bug_id holds in [value]: the JSON
    text for a JSON field, the submitted value otherwise. *)
Definition bug_update_value (key : string) (v : JsValue) : JsValue :=
  if Req.mem key bug_json_fields then JStr (JSON_stringify v) else v.

(** The guard of that loop.  A value of a parsed body is never
    [undefined], so [updates[key] !== undefined] holds for every key. *)
Definition bug_key_updatable (key : string) : bool :=
  negb (Req.mem key ["id"; "bug_id"; "created_at"]).

(** [if (currentBug[key] !== value)] *)
Definition bug_field_differs (currentBug : gmap string SqlValue)
  (kv : string * JsValue) : bool :=
  Js.strict_neq_opt (row_prop currentBug (fst kv))
                    (bug_update_value (fst kv) (snd kv)).

(** One INSERT INTO bug_history; a failure is logged and nothing else. *)
Definition log_bug_history (now : string) (vals : list (string * SqlValue))
  (h : Table) : Table :=
  match Sql.insert Schema.bug_history now vals h with
  | Some h' => h'
  | None => h
  end.

Definition bug_update_entry (bug_id : string) (currentBug : gmap string SqlValue)
  (changed_by_id changed_by_name : option JsValue) (kv : string * JsValue)
  : list (string * SqlValue) :=
  [ ("bug_id", SText bug_id); ("action", SText "Updated");
    ("field_name", SText (fst kv));
    ("old_value", Sql.bind_opt (row_prop currentBug (fst kv)));
    ("new_value", Sql.bind (bug_update_value (fst kv) (snd kv)));
    ("changed_by_id", Sql.bind_opt changed_by_id);
    ("changed_by_name", Sql.bind_opt changed_by_name) ].

(** The history statements the loop issues, in the order of the keys. *)
Definition bug_update_log (now : string) (bug_id : string)
  (currentBug : gmap string SqlValue)
  (changed_by_id changed_by_name : option JsValue) (updates : Body) (h : Table)
  : Table :=
  fold_left
    (fun acc kv =>
       if bug_key_updatable (fst kv) && bug_field_differs currentBug kv
       then log_bug_history now
              (bug_update_entry bug_id currentBug changed_by_id changed_by_name kv)
              acc
       else acc)
    updates h.

(** PUT /api/bugs/:bug_id *)
Definition put_bug (now : string) (bug_id : string) (body : Body) (st : Store)
  : Response * Store :=
  let changed_by_id := Req.field "changed_by_id" body in
  let changed_by_name := Req.field "changed_by_name" body in
  let updates := Req.remove "changed_by_name" (Req.remove "changed_by_id" body) in
  match
    Sql.select_one (Sql.where_eq Schema.bugs "bug_id" (SText bug_id)) (bugs st)
  with
  | None => (not_found "Bug not found", st)
  | Some currentBug =>
      let sets :=
        dynamic_sets ["id"; "bug_id"; "created_at"] bug_json_fields updates in
      let st1 :=
        set_bug_history
          (bug_update_log now bug_id currentBug changed_by_id changed_by_name
             updates (bug_history st)) st in
      if is_empty sets then (ok (PSuccess "No changes to update" []), st1)
      else
        match
          Sql.update Schema.bugs
            (Sql.where_eq Schema.bugs "bug_id" (SText bug_id))
            (sets ++ [("updated_at", SText now)])%list (bugs st1)
        with
        | None => (sql_error, st1)
        | Some (t', n) =>
            (ok (PSuccess "Bug updated successfully"
                   [("changes", jint (Z.of_nat n))]),
             set_bugs t' st1)
        end
  end.

(** DELETE /api/bugs/:bug_id *)
Definition delete_bug (now : string) (bug_id : string) (body : Body)
  (st : Store) : Response * Store :=
  match
    Sql.update Schema.bugs (Sql.where_eq Schema.bugs "bug_id" (SText bug_id))
      [ ("is_deleted", sint 1); ("status", SText "Rejected");
        ("resolution", SText "Won't Fix"); ("updated_at", SText now) ]
      (bugs st)
  with
  | None => (sql_error, st)
  | Some (t', O) => (not_found "Bug not found", set_bugs t' st)
  | Some (t', _) =>
      let h :=
        log_bug_history now
          [ ("bug_id", SText bug_id); ("action", SText "Deleted");
            ("field_name", SText "is_deleted"); ("new_value", SText "true");
            ("changed_by_id",
             Sql.bind (Req.or_else (Req.field "deleted_by_id" body)
                                   (JStr "System")));
            ("changed_by_name",
             Sql.bind (Req.or_else (Req.field "deleted_by_name" body)
                                   (JStr "System"))) ]
          (bug_history st) in
      (ok (PSuccess "Bug deleted successfully" []),
       set_bug_history h (set_bugs t' st))
  end.

(** [if (row.f) row.f = safeJsonParse(row.f, fallback)] *)
Definition decode_if_set (key : string) (fallback : JsValue)
  (row : gmap string JsValue) : gmap string JsValue :=
  match row !! key with
  | Some v => if Js.truthy v then <[key := safeJsonParse v fallback]> row else row
  | None => row
  end.

(** The row a bug endpoint sends: the JSON columns decoded in place. *)
Definition present_bug (r : gmap string SqlValue) : gmap string JsValue :=
  decode_if_set "attachments" (JArr [])
    (decode_if_set "tags" (JArr [])
       (decode_if_set "environment" (JObj [])
          (decode_if_set "related_bugs" (JArr [])
             (decode_if_set "linked_tests" (JArr [])
                (decode_if_set "steps_to_reproduce" (JArr [])
                   (Sql.to_js <$> r)))))).

(** GET /api/bugs/:bug_id *)
Definition get_bug (bug_id : string) (st : Store) : Response :=
  match
    Sql.select_one (Sql.where_eq Schema.bugs "bug_id" (SText bug_id)) (bugs st)
  with
  | None => not_found "Bug not found"
  | Some row => ok (PRow (present_bug row))
  end.

End BugHandlers.

(* ===================================================================== *)
(** ** The bug listing *)
(* ===================================================================== *)

Module Query.

(** [parseInt(s)]: leading white space, a sign, then decimal digits or, after
    [0x], hexadecimal ones; [None] is NaN. *)
Fixpoint take_hex (acc : Z) (cnt : nat) (l : list ascii) : Z * nat :=
  match l with
  | c :: l' =>
      match StdJson.hex_val c with
      | Some d => take_hex (acc * 16 + d) (S cnt) l'
      | None => (acc, cnt)
      end
  | [] => (acc, cnt)
  end.

Definition parseInt (s : string) : option Z :=
  let l := Str.drop_while Str.is_js_space (Str.chars s) in
  let '(neg, l1) :=
    match l with
    | c :: r =>
        if Ascii.eqb c "-" then (true, r)
        else if Ascii.eqb c "+" then (false, r) else (false, l)
    | [] => (false, l)
    end in
  let '(v, cnt) :=
    match l1 with
    | z :: x :: r =>
        if Ascii.eqb z "0" && (Ascii.eqb x "x" || Ascii.eqb x "X")
        then take_hex 0 0 r
        else let '(v, cnt, _) := StdJson.take_digits 0 0 l1 in (v, cnt)
    | _ => let '(v, cnt, _) := StdJson.take_digits 0 0 l1 in (v, cnt)
    end in
  if (cnt =? 0)%nat then None else Some (if neg then - v else v).

(** [LIKE]: [%] is any run of characters, [_] any one character, and
    ASCII letters match without regard to case. *)
Fixpoint like_chars (p s : list ascii) : bool :=
  match p with
  | [] => match s with [] => true | _ => false end
  | c :: p' =>
      if Ascii.eqb c "%" then
        (fix any (s : list ascii) : bool :=
           like_chars p' s
           || match s with
              | [] => false
              | _ :: s' => any s'
              end) s
      else
        match s with
        | [] => false
        | d :: s' =>
            (Ascii.eqb c "_"
             || Ascii.eqb (Str.lower_ascii c) (Str.lower_ascii d))
            && like_chars p' s'
        end
  end.

(** [col LIKE ?] holds; the operands are read as text. *)
Definition like (v : SqlValue) (pattern : string) : bool :=
  match v with
  | SNull => false
  | SNum m k => like_chars (Str.chars pattern) (Str.chars (Js.num_to_string m k))
  | SText s => like_chars (Str.chars pattern) (Str.chars s)
  end.

(** The order of ORDER BY: NULL, then numbers, then text by its bytes. *)
Definition leq (a b : SqlValue) : bool :=
  match a, b with
  | SNull, _ => true
  | _, SNull => false
  | SNum m k, SNum m' k' => (m * 10 ^ Z.of_nat k' <=? m' * 10 ^ Z.of_nat k)
  | SNum _ _, SText _ => true
  | SText _, SNum _ _ => false
  | SText s, SText t => String.leb s t
  end.

Fixpoint insert_by {A : Type} (before : A -> A -> bool) (x : A) (l : list A)
  : list A :=
  match l with
  | [] => [x]
  | y :: l' => if before x y then x :: l else y :: insert_by before x l'
  end.

(** A stable sort: rows that compare equal keep their rowid order. *)
Definition sort_by {A : Type} (before : A -> A -> bool) (l : list A) : list A :=
  fold_right (insert_by before) [] l.

(** [ORDER BY col DESC] *)
Definition order_desc (col : string) (t : Table) : Table :=
  sort_by (fun r r' => leq (Sql.get r' col) (Sql.get r col)) t.

(** [LIMIT ? OFFSET ?]: a negative limit is no limit, a negative offset is
    none. *)
Definition limit_offset {A : Type} (limit offset : Z) (l : list A) : list A :=
  let l' := drop (Z.to_nat offset) l in
  if limit <? 0 then l' else take (Z.to_nat limit) l'.

End Query.

Section BugListing.
Context `{RT : JsRuntime}.

Definition not_deleted (r : gmap string SqlValue) : bool :=
  Sql.eqv (Sql.get r "is_deleted") (sint 0) || Sql.is_null (Sql.get r "is_deleted").

Definition deleted (r : gmap string SqlValue) : bool :=
  Sql.eqv (Sql.get r "is_deleted") (sint 1).

(** A query parameter that is given and not empty: [if (status)]. *)
Definition given (q : Query) (key : string) : option string :=
  match Req.field key q with
  | Some s => if Str.nonempty s then Some s else None
  | None => None
  end.

(** [AND col = ?] when the parameter is given. *)
Definition filter_eq (q : Query) (col : string) (r : gmap string SqlValue)
  : bool :=
  match given q col with
  | Some s => Sql.where_eq Schema.bugs col (SText s) r
  | None => true
  end.

(** The WHERE clause GET /api/bugs builds from the query. *)
Definition bugs_where (q : Query) (r : gmap string SqlValue) : bool :=
  (match Req.field "show_deleted" q with
   | Some s =>
       if String.eqb s "false" then not_deleted r
       else if String.eqb s "true" then deleted r
       else true
   | None => true
   end)
  && (match Req.field "show_rejected" q with
      | Some s =>
          if String.eqb s "false" then
            Sql.nev (Sql.get r "status") (SText "Rejected") || deleted r
          else if String.eqb s "true" then
            Sql.eqv (Sql.get r "status") (SText "Rejected") && not_deleted r
          else true
      | None => true
      end)
  && filter_eq q "status" r
  && filter_eq q "priority" r
  && filter_eq q "severity" r
  && filter_eq q "assignee_id" r
  && filter_eq q "module_id" r
  && (match given q "search" with
      | Some s =>
          let pattern := "%" +:+ s +:+ "%" in
          Query.like (Sql.get r "title") pattern
          || Query.like (Sql.get r "description") pattern
      | None => true
      end).

(** [parseInt(limit)] with the default of the destructuring. *)
Definition int_param (q : Query) (key : string) (dflt : Z) : option Z :=
  match Req.field key q with
  | Some s => Query.parseInt s
  | None => Some dflt
  end.

(** GET /api/bugs.  A LIMIT or OFFSET that is NaN is bound as NULL, which
    the statement refuses. *)
Definition get_bugs (q : Query) (st : Store) : Response :=
  match int_param q "limit" 100, int_param q "offset" 0 with
  | Some limit, Some offset =>
      ok (PRows
            (map present_bug
               (Query.limit_offset limit offset
                  (Query.order_desc "created_at"
                     (Sql.select (bugs_where q) (bugs st))))))
  | _, _ => sql_error
  end.

End BugListing.

(* ===================================================================== *)
(** ** Features *)
(* ===================================================================== *)

Section FeatureHandlers.
Context `{RT : JsRuntime}.

Definition allowedFields : list string :=
  [ "title"; "description"; "business_value"; "user_story";
    "acceptance_criteria";
    "priority"; "feature_type"; "category"; "complexity"; "status";
    "module_id"; "target_version";
    "owner_id"; "owner_name"; "owner_email";
    "developer_id"; "developer_name"; "developer_email";
    "tester_id"; "tester_name"; "tester_email";
    "estimated_hours"; "actual_hours"; "progress_percentage";
    "start_date"; "end_date";
    "technical_notes"; "api_endpoints"; "database_changes";
    "dependencies_external";
    "started_at"; "completed_at"; "released_at";
    "tags"; "is_deleted" ].

(** [Array.isArray(value) || (typeof value === 'object' && value !== null)] *)
Definition is_array_or_object (v : JsValue) : bool :=
  match v with JArr _ | JObj _ => true | _ => false end.

Definition feature_param (v : JsValue) : SqlValue :=
  if is_array_or_object v then SText (JSON_stringify v) else Sql.bind v.

Definition feature_sets (updates : Body) : list (string * SqlValue) :=
  flat_map
    (fun kv =>
       if Req.mem (fst kv) allowedFields
       then [(fst kv, feature_param (snd kv))] else [])
    updates.

(** [String(v || '')] *)
Definition string_or_empty (v : option JsValue) : string :=
  Js.to_string (Req.or_else v (JStr "")).

(** [if (oldValue !== newValue)]: the stored value against the value as
    submitted. *)
Definition feature_field_differs (oldFeature : gmap string SqlValue)
  (kv : string * JsValue) : bool :=
  Js.strict_neq_opt (row_prop oldFeature (fst kv)) (snd kv).

Definition feature_update_entry (now : string) (feature_id : string)
  (oldFeature : gmap string SqlValue) (changed_by_name : JsValue)
  (kv : string * JsValue) : list (string * SqlValue) :=
  [ ("feature_id", SText feature_id); ("action", SText "Field Updated");
    ("field_name", SText (fst kv));
    ("old_value", SText (string_or_empty (row_prop oldFeature (fst kv))));
    ("new_value", SText (string_or_empty (Some (snd kv))));
    ("changed_by_name", Sql.bind changed_by_name);
    ("changed_at", SText now) ].

(** One INSERT INTO feature_history; the statement has no callback, so a
    failure goes unnoticed. *)
Definition log_feature_history (now : string) (vals : list (string * SqlValue))
  (h : Table) : Table :=
  match Sql.insert Schema.feature_history now vals h with
  | Some h' => h'
  | None => h
  end.

Definition feature_update_log (now : string) (feature_id : string)
  (oldFeature : gmap string SqlValue) (changed_by_name : JsValue)
  (updates : Body) (h : Table) : Table :=
  fold_left
    (fun acc kv =>
       if Req.mem (fst kv) allowedFields && feature_field_differs oldFeature kv
       then log_feature_history now
              (feature_update_entry now feature_id oldFeature changed_by_name kv)
              acc
       else acc)
    updates h.

(** PUT /api/features/:feature_id *)
Definition put_feature (now : string) (feature_id : string) (body : Body)
  (st : Store) : Response * Store :=
  let changed_by_name :=
    Req.or_else (Req.field "changed_by_name" body) (JStr "Unknown") in
  let updates := Req.remove "changed_by_name" body in
  match
    Sql.select_one
      (Sql.where_eq Schema.upcoming_features "feature_id" (SText feature_id))
      (upcoming_features st)
  with
  | None => (not_found "Feature not found", st)
  | Some oldFeature =>
      let sets := feature_sets updates in
      let st1 :=
        set_feature_history
          (feature_update_log now feature_id oldFeature changed_by_name updates
             (feature_history st)) st in
      if is_empty sets then (bad_request "No valid fields to update", st1)
      else
        match
          Sql.update Schema.upcoming_features
            (Sql.where_eq Schema.upcoming_features "feature_id"
               (SText feature_id))
            (sets ++ [("updated_at", SText now)])%list (upcoming_features st1)
        with
        | None => (sql_error, st1)
        | Some (t', _) =>
            (ok (PSuccess "Feature updated successfully" []),
             set_upcoming_features t' st1)
        end
  end.

End FeatureHandlers.

(* ===================================================================== *)
(** ** Users and custom tests of [server.js] *)
(* ===================================================================== *)

Section UserHandlers.
Context `{RT : JsRuntime}.

(** The loop of PUT /api/users/:id.  [None] is the TypeError of
    [updates[key].toLowerCase()] on an [email] that is no string. *)
Fixpoint user_sets (updates : Body) : option (list (string * SqlValue)) :=
  match updates with
  | [] => Some []
  | (key, v) :: rest =>
      if Req.mem key ["id"; "created_at"] then user_sets rest
      else
        let value :=
          if String.eqb key "email" then
            match v with
            | JStr s => Some (SText (Str.toLowerCase s))
            | _ => None
            end
          else Some (Sql.bind v) in
        match value, user_sets rest with
        | Some x, Some sets => Some ((key, x) :: sets)
        | _, _ => None
        end
  end.

(** PUT /api/users/:id.  A response of [None] is the uncaught TypeError,
    which Express answers with 500. *)
Definition put_user (now : string) (id : string) (updates : Body) (st : Store)
  : option Response * Store :=
  match user_sets updates with
  | None => (None, st)
  | Some sets =>
      if is_empty sets then (Some (bad_request "No fields to update"), st)
      else
        match
          Sql.update Schema.users (Sql.where_eq Schema.users "id" (SText id))
            (sets ++ [("updated_at", SText now)])%list (users st)
        with
        | None => (Some sql_error, st)
        | Some (t', O) => (Some (not_found "User not found"), set_users t' st)
        | Some (t', _) =>
            (Some (ok (PSuccess "User updated successfully" [])),
             set_users t' st)
        end
  end.

Definition is_admin (r : gmap string SqlValue) : bool :=
  Sql.eqv (Sql.get r "role") (SText "admin").

(** the count of the rows of users with [role = 'admin' AND id != ?] *)
Definition other_admins (id : string) (st : Store) : nat :=
  Sql.count_where
    (fun r => is_admin r && Sql.where_ne Schema.users "id" (SText id) r)
    (users st).

(** DELETE /api/users/:id *)
Definition delete_user (id : string) (st : Store) : Response * Store :=
  let adminCount := other_admins id st in
  match
    Sql.select_one (Sql.where_eq Schema.users "id" (SText id)) (users st)
  with
  | None => (not_found "User not found", st)
  | Some user =>
      if Js.strict_eq (Sql.to_js (Sql.get user "role")) (JStr "admin")
         && (adminCount =? 0)%nat
      then (bad_request "Cannot delete the last admin user", st)
      else
        let '(t', _) :=
          Sql.delete (Sql.where_eq Schema.users "id" (SText id)) (users st) in
        (ok (PSuccess "User deleted successfully" []), set_users t' st)
  end.

Definition user_columns : list string :=
  ["id"; "email"; "name"; "role"; "status"; "created_at"; "created_by";
   "last_login"].

Definition project (cols : list string) (r : gmap string SqlValue)
  : gmap string JsValue :=
  list_to_map (map (fun c => (c, Sql.to_js (Sql.get r c))) cols).

(** GET /api/users/:id *)
Definition get_user (id : string) (st : Store) : Response :=
  match
    Sql.select_one (Sql.where_eq Schema.users "id" (SText id)) (users st)
  with
  | None => not_found "User not found"
  | Some user => ok (PRow (project user_columns user))
  end.

(** PUT /api/custom-tests/:test_id *)
Definition put_custom_test (now : string) (test_id : string) (updates : Body)
  (st : Store) : Response * Store :=
  let sets :=
    dynamic_sets ["test_id"; "id"; "created_at"]
      ["steps"; "prerequisites"; "tags"] updates in
  match
    Sql.update Schema.custom_tests
      (Sql.where_eq Schema.custom_tests "test_id" (SText test_id))
      (sets ++ [("updated_at", SText now)])%list (custom_tests st)
  with
  | None => (sql_error, st)
  | Some (t', O) => (not_found "Test not found", set_custom_tests t' st)
  | Some (t', _) =>
      (ok (PSuccess "Custom test updated successfully" []),
       set_custom_tests t' st)
  end.

End UserHandlers.

(* ===================================================================== *)
(** ** Statistics: tests by status *)
(* ===================================================================== *)

Module Stats.

(** [UPPER(x)]: the ASCII letters of the text of [x]; NULL stays NULL. *)
Definition UPPER (v : SqlValue) : SqlValue :=
  match v with
  | SNull => SNull
  | SNum m k => SText (Str.map_chars Str.upper_ascii (Js.num_to_string m k))
  | SText s => SText (Str.map_chars Str.upper_ascii s)
  end.

(** [TRIM(x)]: the text of [x] without the spaces at its two ends. *)
Definition TRIM (v : SqlValue) : SqlValue :=
  match v with
  | SNull => SNull
  | SNum m k => SText (Js.num_to_string m k)
  | SText s => SText (Str.strip (Ascii.eqb Str.space) s)
  end.

Definition is_in (v : SqlValue) (texts : list string) : bool :=
  existsb (fun t => Sql.eqv v (SText t)) texts.

(** The CASE expression of [testsByStatus] in GET /api/statistics. *)
Definition status_bucket (status : SqlValue) : SqlValue :=
  if Sql.eqv (UPPER status) (SText "PASS") then SText "Pass"
  else if Sql.eqv (UPPER status) (SText "FAIL") then SText "Fail"
  else if Sql.eqv (UPPER status) (SText "BLOCKED") then SText "Blocked"
  else if Sql.eqv (UPPER status) (SText "NOT STARTED") then SText "Not Started"
  else status.

(** The CASE expression of [testsByStatus] in
    GET /api/versions/:version_id/statistics. *)
Definition version_status_bucket (status : SqlValue) : SqlValue :=
  if is_in (UPPER (TRIM status)) ["PASS"; "PASSED"] then SText "Pass"
  else if is_in (UPPER (TRIM status)) ["FAIL"; "FAILED"] then SText "Fail"
  else if Sql.eqv (UPPER (TRIM status)) (SText "BLOCKED") then SText "Blocked"
  else if is_in (UPPER (TRIM status)) ["NOT STARTED"; "NOTSTARTED"]
       then SText "Not Started"
  else TRIM status.

(** Add one to the count of a group, or open the group. *)
Fixpoint tally (key : SqlValue) (groups : list (SqlValue * nat))
  : list (SqlValue * nat) :=
  match groups with
  | [] => [(key, 1%nat)]
  | (k, n) :: rest =>
      if decide (k = key) then (k, S n) :: rest else (k, n) :: tally key rest
  end.

(** [SELECT key, COUNT( * ) ... GROUP BY key], the groups in the order of
    ORDER BY. *)
Definition group_count (key : gmap string SqlValue -> SqlValue) (t : Table)
  : list (SqlValue * nat) :=
  Query.sort_by (fun a b => Query.leq (fst a) (fst b))
    (fold_left (fun groups r => tally (key r) groups) t []).

(** [testsByStatus] of GET /api/statistics. *)
Definition testsByStatus (st : Store) : list (SqlValue * nat) :=
  group_count (fun r => status_bucket (Sql.get r "status")) (test_results st).

(** [test_results tr JOIN test_sessions ts ON tr.session_id = ts.session_id
    WHERE ts.version_id = ?] *)
Definition results_of_version (version_id : string) (st : Store) : Table :=
  flat_map
    (fun tr =>
       map (fun _ => tr)
         (filter
            (fun ts =>
               Is_true (Sql.eqv (Sql.get tr "session_id") (Sql.get ts "session_id")
                        && Sql.eqv (Sql.get ts "version_id") (SText version_id)))
            (test_sessions st)))
    (test_results st).

(** [testsByStatus] of GET /api/versions/:version_id/statistics. *)
Definition version_testsByStatus (version_id : string) (st : Store)
  : list (SqlValue * nat) :=
  group_count (fun r => version_status_bucket (Sql.get r "status"))
    (results_of_version version_id st).

(** The statuses the two CASE expressions name. *)
Definition named (status : SqlValue) : bool :=
  is_in (UPPER status) ["PASS"; "FAIL"; "BLOCKED"; "NOT STARTED"].

Definition version_named (status : SqlValue) : bool :=
  is_in (UPPER (TRIM status))
    ["PASS"; "PASSED"; "FAIL"; "FAILED"; "BLOCKED"; "NOT STARTED"; "NOTSTARTED"].

(** "differ only in letter case and/or surrounding whitespace": the same
    text after trim and case-fold. *)
Definition same_modulo_case_and_space (a b : SqlValue) : Prop :=
  UPPER (TRIM a) = UPPER (TRIM b).

(** The count a listing of groups shows for a bucket. *)
Definition count_of (bucket : SqlValue) (groups : list (SqlValue * nat)) : nat :=
  match find (fun g => bool_decide (fst g = bucket)) groups with
  | Some g => snd g
  | None => O
  end.

End Stats.

(* ===================================================================== *)
(** ** The users router of the TypeScript server ([src/routes/users.ts]) *)
(* ===================================================================== *)

Module Ts.

(** The [users] table of [database/init]. *)
Definition users_schema : Schema :=
  mkSchema
    [ Schema.num "id"; Schema.text_nn "email"; Schema.text_nn "password";
      Schema.text_nn "name"; Schema.text_def "role" "tester";
      Schema.num_def "is_active" 1; Schema.stamp "created_at";
      Schema.stamp "updated_at" ]
    [ "id"; "email" ] (Some "id").

(** router.delete('/:id'), past [authenticateToken] and [requireAdmin]. *)
Definition delete_user (id : string) (users : Table) : Response * Table :=
  match
    Sql.update users_schema (Sql.where_eq users_schema "id" (SText id))
      [("is_active", sint 0)] users
  with
  | None => (mkResponse 500 (PError "Failed to delete user"), users)
  | Some (t', O) => (not_found "User not found", t')
  | Some (t', _) => (ok (PSuccess "User deactivated successfully" []), t')
  end.

Definition user_columns : list string :=
  ["id"; "email"; "name"; "role"; "is_active"; "created_at"].

(** router.get('/:id'), past [authenticateToken]. *)
Definition get_user (id : string) (users : Table) : Response :=
  match Sql.select_one (Sql.where_eq users_schema "id" (SText id)) users with
  | None => not_found "User not found"
  | Some user => ok (PRow (project user_columns user))
  end.

End Ts.

(* ===================================================================== *)
(** ** Row predicates and row rewrites the properties speak of *)
(* ===================================================================== *)

(** [WHERE bug_id = ?] *)
Definition has_bug_id (bug_id : string) : gmap string SqlValue -> bool :=
  Sql.where_eq Schema.bugs "bug_id" (SText bug_id).

(** The SET clause of DELETE /api/bugs/:bug_id. *)
Definition delete_bug_sets (now : string) : list (string * SqlValue) :=
  [ ("is_deleted", sint 1); ("status", SText "Rejected");
    ("resolution", SText "Won't Fix"); ("updated_at", SText now) ].

(** What that SET clause makes of a row. *)
Definition mark_deleted (now : string) (r : gmap string SqlValue)
  : gmap string SqlValue :=
  <["updated_at" := Sql.coerce AffNumeric (SText now)]>
    (<["resolution" := SText "Won't Fix"]>
       (<["status" := SText "Rejected"]>
          (<["is_deleted" := sint 1]> r))).

(** [WHERE id = ?] on the users of [server.js] and of the TypeScript
    server. *)
Definition has_user_id (id : string) : gmap string SqlValue -> bool :=
  Sql.where_eq Schema.users "id" (SText id).

Definition ts_has_user_id (id : string) : gmap string SqlValue -> bool :=
  Sql.where_eq Ts.users_schema "id" (SText id).

(** [SET is_active = 0] *)
Definition deactivated (r : gmap string SqlValue) : gmap string SqlValue :=
  <["is_active" := sint 0]> r.

(** The rowids of a table are integers, as an INTEGER PRIMARY KEY makes
    them. *)
Definition integer_keys (t : Table) : Prop :=
  Forall (fun r : gmap string SqlValue => exists m, r !! "id" = Some (SNum m O)) t.

(** What a history row says: action, field, old value, new value. *)
Definition history_view (r : gmap string SqlValue)
  : SqlValue * SqlValue * SqlValue * SqlValue :=
  (Sql.get r "action", Sql.get r "field_name",
   Sql.get r "old_value", Sql.get r "new_value").

Section HistoryViews.
Context `{RT : JsRuntime}.

(** The body of PUT /api/bugs/:bug_id without its two meta fields. *)
Definition bug_updates (body : Body) : Body :=
  Req.remove "changed_by_name" (Req.remove "changed_by_id" body).

(** The keys for which the loop of PUT /api/bugs/:bug_id writes history. *)
Definition bug_logged (currentBug : gmap string SqlValue)
  (kv : string * JsValue) : bool :=
  bug_key_updatable (fst kv) && bug_field_differs currentBug kv.

(** The history row of one such key, as the TEXT columns keep it. *)
Definition bug_logged_row (currentBug : gmap string SqlValue)
  (kv : string * JsValue) : SqlValue * SqlValue * SqlValue * SqlValue :=
  (SText "Updated", SText (fst kv),
   Sql.coerce AffText (Sql.bind_opt (row_prop currentBug (fst kv))),
   Sql.coerce AffText (Sql.bind (bug_update_value (fst kv) (snd kv)))).

Definition feature_updates (body : Body) : Body :=
  Req.remove "changed_by_name" body.

Definition feature_logged (oldFeature : gmap string SqlValue)
  (kv : string * JsValue) : bool :=
  Req.mem (fst kv) allowedFields && feature_field_differs oldFeature kv.

Definition feature_logged_row (oldFeature : gmap string SqlValue)
  (kv : string * JsValue) : SqlValue * SqlValue * SqlValue * SqlValue :=
  (SText "Field Updated", SText (fst kv),
   SText (string_or_empty (row_prop oldFeature (fst kv))),
   SText (string_or_empty (Some (snd kv)))).

(** [WHERE feature_id = ?] *)
Definition has_feature_id (feature_id : string) : gmap string SqlValue -> bool :=
  Sql.where_eq Schema.upcoming_features "feature_id" (SText feature_id).

(** *** The recorder in the words of the specification

    "compare the pre-update row's value for each changed field against the
    new value (string comparison after JSON-encoding, so array/object fields
    compare by serialized form); for every field where they differ, append
    one History row capturing (..., action="Updated", field name, old value
    as string, new value as string, ...)". *)
Definition stored_string (stored : option JsValue) : string :=
  match stored with
  | Some v => Js.to_string v
  | None => ""
  end.

Definition encoded (v : JsValue) : string :=
  if is_array_or_object v then JSON_stringify v else Js.to_string v.

Definition claimed_differs (stored : gmap string SqlValue)
  (kv : string * JsValue) : bool :=
  negb (String.eqb (stored_string (row_prop stored (fst kv))) (encoded (snd kv))).

Definition claimed_rows (updatable : string -> bool)
  (stored : gmap string SqlValue) (updates : Body)
  : list (SqlValue * SqlValue * SqlValue * SqlValue) :=
  map (fun kv => (SText "Updated", SText (fst kv),
                  SText (stored_string (row_prop stored (fst kv))),
                  SText (encoded (snd kv))))
      (filter (fun kv => Is_true (updatable (fst kv) && claimed_differs stored kv))
              updates).

(** The rows a handler appended to a history table. *)
Definition appended (before after : Table) : Table :=
  drop (length before) after.

End HistoryViews.

(** The rowid of a row, 0 when it has none. *)
Definition rowid_of (r : gmap string SqlValue) : Z :=
  match Sql.get r "id" with SNum m O => m | _ => 0 end.

(** The rows the two history tables receive. *)
Definition bug_history_row (now bug_id action : string)
  (f o n ci cn : SqlValue) (h : Table) : gmap string SqlValue :=
  list_to_map
    [ ("id", sint (Sql.next_rowid "id" h)); ("bug_id", SText bug_id);
      ("action", SText action); ("field_name", f); ("old_value", o);
      ("new_value", n); ("changed_by_id", ci); ("changed_by_name", cn);
      ("changed_at", Sql.coerce AffNumeric (SText now)) ].

Definition feature_history_row (now feature_id action : string)
  (f o n cn : SqlValue) (h : Table) : gmap string SqlValue :=
  list_to_map
    [ ("id", sint (Sql.next_rowid "id" h)); ("feature_id", SText feature_id);
      ("action", SText action); ("field_name", f); ("old_value", o);
      ("new_value", n); ("changed_by_id", SNull); ("changed_by_name", cn);
      ("changed_at", Sql.coerce AffNumeric (SText now)) ].


(* ===================================================================== *)
(** ** Sequences of operations on versions *)
(* ===================================================================== *)

(** [WHERE version_id = ?] and [WHERE version_id != ?] *)
Definition has_version_id (version_id : string) : gmap string SqlValue -> bool :=
  Sql.where_eq Schema.versions "version_id" (SText version_id).

Definition other_version_id (version_id : string)
  : gmap string SqlValue -> bool :=
  Sql.where_ne Schema.versions "version_id" (SText version_id).

(** [SET is_current = 0, updated_at = CURRENT_TIMESTAMP] *)
Definition unset (now : string) (r : gmap string SqlValue)
  : gmap string SqlValue :=
  <["updated_at" := Sql.coerce AffNumeric (SText now)]>
    (<["is_current" := sint 0]> r).

(** [SET is_current = 1, updated_at = CURRENT_TIMESTAMP] *)
Definition set_current (now : string) (r : gmap string SqlValue)
  : gmap string SqlValue :=
  <["updated_at" := Sql.coerce AffNumeric (SText now)]>
    (<["is_current" := sint 1]> r).

(** What the UNIQUE NOT NULL column version_id guarantees of a table. *)
Definition versions_keyed (t : Table) : Prop :=
  Forall (fun r : gmap string SqlValue =>
            exists s, r !! "version_id" = Some (SText s)) t
  /\ forall s : string, (Sql.count_where (has_version_id s) t <= 1)%nat.

Inductive VersionOp : Type :=
| OpCreate (body : list (string * JsValue))
| OpUpdate (version_id : string) (updates : list (string * JsValue))
| OpSetCurrent (version_id : string).

(** A key that names the column is_current or version_id spells it as the
    schema does. *)
Definition exact_key (key : string) : Prop :=
  (Sql.ident_eq "is_current" key = true -> key = "is_current")
  /\ (Sql.ident_eq "version_id" key = true -> key = "version_id").

(** A request body is an object, so no key occurs twice. *)
Definition plain_update (op : VersionOp) : Prop :=
  match op with
  | OpUpdate _ updates =>
      NoDup (map fst updates) /\ Forall (fun kv => exact_key (fst kv)) updates
  | _ => True
  end.

Section VersionRuns.
Context `{RT : JsRuntime}.

(** The SET clause of PUT /api/versions/:version_id. *)
Definition version_sets (now : string) (updates : Body)
  : list (string * SqlValue) :=
  (dynamic_sets ["version_id"; "id"; "created_at"] version_json_fields updates
   ++ [("updated_at", SText now)])%list.


Definition run_version_op (now : string) (op : VersionOp) (st : Store) : Store :=
  match op with
  | OpCreate body => snd (post_version now body st)
  | OpUpdate version_id updates => snd (put_version now version_id updates st)
  | OpSetCurrent version_id => snd (put_version_set_current now version_id st)
  end.

(** What the schema and the handlers keep of the versions table. *)
Definition version_inv (st : Store) : Prop :=
  versions_keyed (versions st) /\ (current_count st <= 1)%nat.

(** Requests in the order they arrive, each with its time. *)
Definition run_version_ops (ops : list (string * VersionOp)) (st : Store)
  : Store :=
  fold_left (fun st' op => run_version_op (fst op) (snd op) st') ops st.

End VersionRuns.

(* ===================================================================== *)
(** ** Sample stores *)
(* ===================================================================== *)

Module Sample.

Definition empty : Store := mkStore [] [] [] [] [] [] [] [] [].

Definition row (cols : list (string * SqlValue)) : gmap string SqlValue :=
  list_to_map cols.

Definition t0 : string := "2025-01-01 09:00:00".
Definition t1 : string := "2025-03-05 12:30:00".

(** One open bug with a tag list. *)
Definition bug1 : gmap string SqlValue :=
  row [ ("id", sint 1); ("bug_id", SText "BUG-1"); ("title", SText "Crash");
        ("description", SText "on save"); ("priority", SText "P2");
        ("severity", SText "Major"); ("status", SText "New");
        ("resolution", SNull); ("tags", SText "[1]");
        ("is_deleted", sint 0);
        ("created_at", SText t0); ("updated_at", SText t0) ].

Definition bug2 : gmap string SqlValue :=
  row [ ("id", sint 2); ("bug_id", SText "BUG-2"); ("title", SText "Typo");
        ("description", SNull); ("priority", SText "P4");
        ("severity", SText "Trivial"); ("status", SText "New");
        ("resolution", SNull); ("tags", SNull);
        ("is_deleted", sint 0);
        ("created_at", SText "2025-01-02 09:00:00");
        ("updated_at", SText "2025-01-02 09:00:00") ].

Definition with_bugs : Store := set_bugs [bug1; bug2] empty.

(** The users [server.js] seeds: one admin and one tester. *)
Definition admin1 : gmap string SqlValue :=
  row [ ("id", SText "admin-001"); ("email", SText "admin@dnaerp.com");
        ("password", SText "admin123"); ("name", SText "System Administrator");
        ("role", SText "admin"); ("status", SText "active");
        ("created_at", SText t0); ("created_by", SNull);
        ("last_login", SNull); ("updated_at", SText t0) ].

Definition tester1 : gmap string SqlValue :=
  row [ ("id", SText "tester-001"); ("email", SText "tester@dnaerp.com");
        ("password", SText "test123"); ("name", SText "Test User");
        ("role", SText "tester"); ("status", SText "active");
        ("created_at", SText t0); ("created_by", SNull);
        ("last_login", SNull); ("updated_at", SText t0) ].

Definition with_users : Store := set_users [admin1; tester1] empty.

(** The users table of the TypeScript server: one admin, one tester. *)
Definition ts_admin : gmap string SqlValue :=
  row [ ("id", sint 1); ("email", SText "admin@example.com");
        ("password", SText "$2a$10$hash"); ("name", SText "Admin");
        ("role", SText "admin"); ("is_active", sint 1);
        ("created_at", SText t0); ("updated_at", SText t0) ].

Definition ts_tester : gmap string SqlValue :=
  row [ ("id", sint 2); ("email", SText "tester@example.com");
        ("password", SText "$2a$10$hash"); ("name", SText "Tester");
        ("role", SText "tester"); ("is_active", sint 1);
        ("created_at", SText t0); ("updated_at", SText t0) ].

Definition ts_users : list (gmap string SqlValue) := [ts_admin; ts_tester].

(** One session on version 1.0 and the results it recorded. *)
Definition session1 : gmap string SqlValue :=
  row [ ("id", sint 1); ("session_id", SText "S-1");
        ("tester_name", SText "Tester"); ("version_id", SText "VER_1_0") ].

Definition result (n : Z) (status : string) : gmap string SqlValue :=
  row [ ("id", sint n); ("session_id", SText "S-1");
        ("module_name", SText "Sales"); ("test_case_id", SText "TC-1");
        ("test_case_title", SText "Create order"); ("status", SText status) ].

Definition with_results : Store :=
  mkStore [] [] [] [] [] [] []
    [ result 1 "Pass"; result 2 "PASS"; result 3 "pass ";
      result 4 "Skipped"; result 5 "SKIPPED" ]
    [ session1 ].

(** Two versions, the first one current. *)
Definition version (n : Z) (version_id number name : string) (current : Z)
  : gmap string SqlValue :=
  row [ ("id", sint n); ("version_id", SText version_id);
        ("version_number", SText number); ("version_name", SText name);
        ("description", SText ""); ("release_date", SText "2025-01-01");
        ("status", SText "active"); ("is_current", sint current);
        ("features", SText "[]"); ("bug_fixes", SText "[]");
        ("known_issues", SText "[]"); ("created_by", SText "admin");
        ("created_at", SText t0); ("updated_at", SText t0) ].

Definition with_versions : Store :=
  set_versions
    [ version 1 "VER_1_0" "1.0" "First" 1;
      version 2 "VER_2_0" "2.0" "Second" 0 ]
    empty.

(** One custom test. *)
Definition test1 : gmap string SqlValue :=
  row [ ("id", sint 1); ("test_id", SText "TC-1"); ("title", SText "Login");
        ("description", SNull); ("module", SText "Auth");
        ("category", SNull); ("priority", SText "Medium");
        ("steps", SText "[]"); ("expected_result", SText "ok");
        ("prerequisites", SNull); ("test_data", SNull);
        ("created_by", SText "admin"); ("created_at", SText t0);
        ("updated_at", SText t0); ("is_active", sint 1); ("tags", SNull);
        ("applicable_versions", SText "[]") ].

Definition with_tests : Store := set_custom_tests [test1] empty.

(** One planned feature with a tag list. *)
Definition feature1 : gmap string SqlValue :=
  row [ ("id", sint 1); ("feature_id", SText "FEAT-2025-0001");
        ("title", SText "Export"); ("description", SText "CSV export");
        ("priority", SText "P3"); ("feature_type", SText "Enhancement");
        ("complexity", SText "Medium"); ("status", SText "Planned");
        ("module_id", SText "MOD_QA"); ("target_version", SText "VER_1_0");
        ("creator_name", SText "admin");
        ("progress_percentage", sint 0); ("tags", SText "[1]");
        ("is_deleted", sint 0);
        ("created_at", SText t0); ("updated_at", SText t0) ].

Definition with_feature : Store := set_upcoming_features [feature1] empty.

(** An update of BUG-1 that changes title, priority and status and submits
    severity and tags as they are stored. *)
Definition bug_update : list (string * JsValue) :=
  [ ("title", JStr "Crash on save"); ("priority", JStr "P1");
    ("severity", JStr "Major"); ("status", JStr "Assigned");
    ("tags", JArr [jint 1]); ("changed_by_name", JStr "QA") ].

(** Three requests: make 2.0 current by an update, create 3.0 as current,
    then set 1.0 current. *)
Definition version_requests : list (string * VersionOp) :=
  [ (t1, OpUpdate "VER_2_0" [("is_current", JBool true)]);
    ("2025-03-06 08:00:00",
     OpCreate [ ("version_number", JStr "3.0"); ("version_name", JStr "Third");
                ("is_current", JBool true); ("created_by", JStr "admin") ]);
    ("2025-03-07 08:00:00", OpSetCurrent "VER_1_0") ].

End Sample.

(* ===================================================================== *)
(** * Facts about the relational layer *)
(* ===================================================================== *)

Section SqlFacts.

Implicit Types (r : gmap string SqlValue) (t : Table) (p : gmap string SqlValue -> bool).

Lemma apply_sets_cons (c : string) (v : SqlValue) rs r :
  Sql.apply_sets ((c, v) :: rs) r = Sql.apply_sets rs (<[c := v]> r).
Proof. reflexivity. Qed.

Lemma apply_sets_nil r : Sql.apply_sets [] r = r.
Proof. reflexivity. Qed.

(** A column no assignment names keeps its value. *)
Lemma apply_sets_other rs r (c : string) :
  c ∉ map fst rs -> Sql.apply_sets rs r !! c = r !! c.
Proof.
  revert r. induction rs as [|[c' v] rs IH]; intros r Hc; [reflexivity|].
  rewrite apply_sets_cons, IH.
  - apply lookup_insert_ne. intros ->. apply Hc. simpl. left.
  - intros H. apply Hc. simpl. right. exact H.
Qed.

Lemma count_where_length p t :
  Sql.count_where p t = length (filter (fun r => Is_true (p r)) t).
Proof. reflexivity. Qed.

(** What a successful UPDATE returns. *)
Lemma update_Some sch p sets t t' n :
  Sql.update sch p sets t = Some (t', n) ->
  exists rs,
    Sql.resolve_sets sch sets = Some rs
    /\ t' = map (fun r => if p r then Sql.apply_sets rs r else r) t
    /\ n = Sql.count_where p t.
Proof.
  unfold Sql.update. destruct (Sql.resolve_sets sch sets) as [rs|]; [|discriminate].
  destruct (forallb _ _); [|discriminate].
  intros [= <- <-]. exists rs. repeat split.
Qed.

(** An UPDATE whose assignments pass the constraints whatever the row. *)
Lemma update_ok sch p sets rs t :
  Sql.resolve_sets sch sets = Some rs ->
  (forall r, Sql.written_ok sch rs (Sql.apply_sets rs r) = true) ->
  (forall r t', Sql.unique_ok sch (map fst rs) r t' = true) ->
  Sql.update sch p sets t
  = Some (map (fun r => if p r then Sql.apply_sets rs r else r) t,
          Sql.count_where p t).
Proof.
  intros Hrs Hw Hu. unfold Sql.update. rewrite Hrs.
  rewrite (proj2 (forallb_forall _ _)); [reflexivity|].
  intros r _. rewrite Hw, Hu. reflexivity.
Qed.

Lemma update_length sch p sets t t' n :
  Sql.update sch p sets t = Some (t', n) -> length t' = length t.
Proof.
  intros (rs & _ & -> & _)%update_Some. apply length_map.
Qed.

(** An UPDATE that matches no row leaves the table as it is. *)
Lemma update_no_match sch p sets t t' :
  Sql.update sch p sets t = Some (t', O) -> t' = t.
Proof.
  intros (rs & _ & -> & Hn)%update_Some.
  unfold Sql.count_where in Hn.
  induction t as [|r t IH]; [reflexivity|].
  rewrite filter_cons in Hn. simpl.
  destruct (decide (Is_true (p r))) as [Hp|Hp].
  - discriminate.
  - destruct (p r); [exfalso; apply Hp; exact I|].
    f_equal. apply IH. exact Hn.
Qed.

Lemma select_one_Some_count p t r :
  Sql.select_one p t = Some r -> Sql.count_where p t <> O.
Proof.
  unfold Sql.select_one, Sql.select, Sql.count_where.
  destruct (filter _ t); [discriminate|]. simpl. discriminate.
Qed.

Lemma select_one_None_count p t :
  Sql.select_one p t = None -> Sql.count_where p t = O.
Proof.
  unfold Sql.select_one, Sql.select, Sql.count_where.
  destruct (filter _ t); [reflexivity|discriminate].
Qed.

Lemma select_one_holds p t r :
  Sql.select_one p t = Some r -> p r = true /\ r ∈ t.
Proof.
  unfold Sql.select_one, Sql.select. intros H.
  assert (Hin : r ∈ filter (fun r => Is_true (p r)) t).
  { destruct (filter _ t) as [|x l]; [discriminate|].
    injection H as ->. left. }
  apply list_elem_of_filter in Hin as [Hp Hin].
  split; [|exact Hin]. destruct (p r); [reflexivity|contradiction].
Qed.

(** Selecting by a predicate that an in-place rewrite preserves. *)
Lemma select_one_map p (f : gmap string SqlValue -> gmap string SqlValue) t :
  (forall r, p (f r) = p r) ->
  Sql.select_one p (map f t) = f <$> Sql.select_one p t.
Proof.
  intros Hp. unfold Sql.select_one, Sql.select.
  induction t as [|r t IH]; [reflexivity|].
  simpl. rewrite !filter_cons, Hp.
  destruct (decide (Is_true (p r))); [reflexivity|exact IH].
Qed.

Lemma select_one_delete p t :
  Sql.select_one p (fst (Sql.delete p t)) = None.
Proof.
  unfold Sql.select_one, Sql.select, Sql.delete. simpl.
  induction t as [|r t IH]; [reflexivity|].
  rewrite filter_cons.
  destruct (decide (~ Is_true (p r))) as [Hn|Hn]; [|exact IH].
  rewrite filter_cons.
  destruct (decide (Is_true (p r))); [contradiction|exact IH].
Qed.

End SqlFacts.

(* ===================================================================== *)
(** * Properties *)
(* ===================================================================== *)

(** ** The JSON-field codec *)

Section CodecFacts.
Context `{RT : JsRuntime}.

Lemma nonempty_eqb (s : string) :
  negb (Str.nonempty s) = String.eqb s "".
Proof. destruct s; reflexivity. Qed.

Lemma split_items_tokens (raw : string) : split_items raw = tokens raw.
Proof.
  unfold split_items, tokens.
  induction (map Str.trim (Str.split_on is_list_sep raw)) as [|t ts IH].
  - reflexivity.
  - rewrite !filter_cons, IH.
    destruct t as [|c t]; simpl.
    + destruct (decide ("" <> "")) as [H|H]; [congruence | reflexivity].
    + destruct (decide (String c t <> "")) as [H|H]; [reflexivity|].
      exfalso. apply H. discriminate.
Qed.

Lemma safeJsonParse_catch_recover (s : string) (fallback : JsValue) :
  safeJsonParse_catch (JStr s) fallback
  = if Js.isArray fallback then recover s else fallback.
Proof.
  unfold safeJsonParse_catch, recover, has_delimiter.
  rewrite split_items_tokens. reflexivity.
Qed.

Lemma safeJsonParse_amended (raw : option string) (fallback : JsValue) :
  safeJsonParse (of_raw raw) fallback = decode_amended raw fallback.
Proof.
  destruct raw as [s|]; [|reflexivity].
  unfold safeJsonParse, decode_amended, of_raw.
  cbn [Js.truthy Js.strict_eq Js.is_object Js.to_string].
  rewrite nonempty_eqb.
  destruct (String.eqb s "") eqn:E0; [reflexivity|].
  destruct (String.eqb s "null") eqn:E1; [reflexivity|].
  destruct (String.eqb s "undefined") eqn:E2; [reflexivity|].
  cbn [orb].
  destruct (JSON_parse s); [reflexivity|].
  apply safeJsonParse_catch_recover.
Qed.

End CodecFacts.

(** C1 (as stated, at the stored text "undefined"): the contract names three
    inputs that yield the fallback, so it sends "undefined" through the
    recovery and wraps it, while [safeJsonParse] returns the fallback. *)
Lemma decode_contract_fails_on_undefined :
  @safeJsonParse StdJson.runtime (of_raw (Some "undefined")) (JArr [])
  = JArr []
  /\ @decode_contract StdJson.runtime (Some "undefined") (JArr [])
     = JArr [JStr "undefined"]
  /\ @safeJsonParse StdJson.runtime (of_raw (Some "undefined")) (JArr [])
     <> @decode_contract StdJson.runtime (Some "undefined") (JArr []).
Proof.
  split; [vm_compute; reflexivity|].
  split; [vm_compute; reflexivity|].
  vm_compute. discriminate.
Qed.

(** C1 (amended): for every run time, stored text and fallback,
    [safeJsonParse] returns a value (it is total): the fallback when the
    text is NULL, empty, "null" or "undefined"; the parsed value when the
    text parses; otherwise, for an array fallback, the trimmed non-empty
    tokens of the text split on commas and newlines, or the one-element
    list of the text when it has neither; otherwise the fallback.  With the
    reference parser "a,b,c" decodes to [a; b; c] and "single" to
    [single]. *)
Theorem safeJsonParse_decodes :
  (forall (RT : JsRuntime) (raw : option string) (fallback : JsValue),
      safeJsonParse (of_raw raw) fallback = decode_amended raw fallback)
  /\ @safeJsonParse StdJson.runtime (JStr "a,b,c") (JArr [])
     = JArr [JStr "a"; JStr "b"; JStr "c"]
  /\ @safeJsonParse StdJson.runtime (JStr "single") (JArr [])
     = JArr [JStr "single"].
Proof.
  split; [intros; apply safeJsonParse_amended|].
  split; vm_compute; reflexivity.
Qed.

(** ** Deleting a bug *)

Section BugDeleteFacts.
Context `{RT : JsRuntime}.

Lemma delete_bug_update (now : string) (p : gmap string SqlValue -> bool)
  (t : Table) :
  Sql.update Schema.bugs p (delete_bug_sets now) t
  = Some (map (fun r => if p r then mark_deleted now r else r) t,
          Sql.count_where p t).
Proof.
  apply (update_ok Schema.bugs p (delete_bug_sets now)
           [ ("is_deleted", sint 1); ("status", SText "Rejected");
             ("resolution", SText "Won't Fix");
             ("updated_at", Sql.coerce AffNumeric (SText now)) ]).
  - reflexivity.
  - intros r. unfold Sql.written_ok, Sql.apply_sets, Sql.get. cbn [fold_left forallb fst snd].
    rewrite lookup_insert_eq.
    rewrite (lookup_insert_ne _ "updated_at" "resolution") by discriminate.
    rewrite lookup_insert_eq.
    do 2 rewrite (lookup_insert_ne _ _ "status") by discriminate.
    rewrite lookup_insert_eq.
    do 3 rewrite (lookup_insert_ne _ _ "is_deleted") by discriminate.
    rewrite lookup_insert_eq.
    destruct (Sql.coerce AffNumeric (SText now)); reflexivity.
  - intros r t'. reflexivity.
Qed.

(** The bugs table after DELETE /api/bugs/:bug_id, whatever the answer. *)
Lemma delete_bug_bugs (now bug_id : string) (body : Body) (st : Store) :
  bugs (snd (delete_bug now bug_id body st))
  = map (fun r => if has_bug_id bug_id r then mark_deleted now r else r)
        (bugs st).
Proof.
  unfold delete_bug. fold (delete_bug_sets now).
  rewrite delete_bug_update.
  destruct (Sql.count_where _ _); reflexivity.
Qed.

Lemma delete_bug_found (now bug_id : string) (body : Body) (st : Store)
  (row : gmap string SqlValue) :
  Sql.select_one (has_bug_id bug_id) (bugs st) = Some row ->
  fst (delete_bug now bug_id body st)
  = ok (PSuccess "Bug deleted successfully" []).
Proof.
  intros Hrow%select_one_Some_count.
  unfold delete_bug. fold (delete_bug_sets now).
  rewrite delete_bug_update. fold (has_bug_id bug_id).
  destruct (Sql.count_where _ _); [congruence|reflexivity].
Qed.

Lemma mark_deleted_other (now : string) (r : gmap string SqlValue) (c : string) :
  c ∉ ["is_deleted"; "status"; "resolution"; "updated_at"] ->
  mark_deleted now r !! c = r !! c.
Proof.
  intros Hc. unfold mark_deleted.
  rewrite !lookup_insert_ne; [reflexivity| | | |];
    intros <-; apply Hc; repeat constructor.
Qed.

Lemma mark_deleted_bug_id (now bug_id : string) (r : gmap string SqlValue) :
  has_bug_id bug_id (mark_deleted now r) = has_bug_id bug_id r.
Proof.
  unfold has_bug_id, Sql.where_eq, Sql.get.
  rewrite mark_deleted_other; [reflexivity|].
  intros H. repeat (apply elem_of_cons in H as [H|H]; [discriminate|]).
  inversion H.
Qed.

End BugDeleteFacts.

(** C10: for an existing bug, DELETE /api/bugs/:bug_id keeps every row of
    the bugs table in its place; in a row with the given bug id it sets
    is_deleted to 1, status to 'Rejected', resolution to "Won't Fix" and
    updated_at to the current timestamp, and leaves every other column as
    it was; every other row is unchanged. *)
Theorem delete_bug_frame
  (now bug_id : string) (body : Body) (st : Store) (row : gmap string SqlValue) :
  Sql.select_one (has_bug_id bug_id) (bugs st) = Some row ->
  let st' := snd (delete_bug now bug_id body st) in
  fst (delete_bug now bug_id body st)
  = ok (PSuccess "Bug deleted successfully" [])
  /\ length (bugs st') = length (bugs st)
  /\ forall (i : nat) (r : gmap string SqlValue),
       bugs st !! i = Some r ->
       if has_bug_id bug_id r then
         exists r',
           bugs st' !! i = Some r'
           /\ r' !! "is_deleted" = Some (sint 1)
           /\ r' !! "status" = Some (SText "Rejected")
           /\ r' !! "resolution" = Some (SText "Won't Fix")
           /\ r' !! "updated_at" = Some (Sql.coerce AffNumeric (SText now))
           /\ forall c : string,
                c ∉ ["is_deleted"; "status"; "resolution"; "updated_at"] ->
                r' !! c = r !! c
       else bugs st' !! i = Some r.
Proof.
  intros Hrow st'. subst st'. rewrite delete_bug_bugs.
  split; [exact (delete_bug_found now bug_id body st row Hrow)|].
  split; [apply length_map|].
  intros i r Hi. rewrite list_lookup_fmap, Hi. simpl.
  destruct (has_bug_id bug_id r); [|reflexivity].
  exists (mark_deleted now r). split; [reflexivity|].
  unfold mark_deleted.
  repeat split.
  - rewrite !lookup_insert_ne by discriminate. apply lookup_insert_eq.
  - rewrite !lookup_insert_ne by discriminate. apply lookup_insert_eq.
  - rewrite !lookup_insert_ne by discriminate. apply lookup_insert_eq.
  - apply lookup_insert_eq.
  - intros c Hc. apply (mark_deleted_other now r c Hc).
Qed.

Lemma delete_bug_frame_witness :
  Sql.select_one (has_bug_id "BUG-1") (bugs Sample.with_bugs)
  = Some Sample.bug1
  /\ length (bugs (snd (delete_bug Sample.t1 "BUG-1" []
                          Sample.with_bugs))) = 2%nat.
Proof.
  assert (H : Sql.select_one (has_bug_id "BUG-1") (bugs Sample.with_bugs)
              = Some Sample.bug1) by (vm_compute; reflexivity).
  split; [exact H|].
  exact (proj1 (proj2 (delete_bug_frame Sample.t1 "BUG-1" []
                         Sample.with_bugs Sample.bug1 H))).
Defined.

(** ** Fetching and listing bugs after a delete *)

Section ListingFacts.
Context `{RT : JsRuntime}.

Lemma insert_by_elem {A : Type} (before : A -> A -> bool) (x y : A) (l : list A) :
  y ∈ Query.insert_by before x l -> y = x \/ y ∈ l.
Proof.
  induction l as [|z l IH]; simpl.
  - intros ->%list_elem_of_singleton. left. reflexivity.
  - destruct (before x z).
    + intros [->|H]%elem_of_cons; [left; reflexivity | right; exact H].
    + intros [->|H]%elem_of_cons.
      * right. left.
      * destruct (IH H) as [->|H']; [left; reflexivity|].
        right. right. exact H'.
Qed.

(** Sorting shows no row that was not there. *)
Lemma sort_by_elem {A : Type} (before : A -> A -> bool) (y : A) (l : list A) :
  y ∈ Query.sort_by before l -> y ∈ l.
Proof.
  induction l as [|x l IH]; simpl; [intros H; exact H|].
  intros [->|H]%insert_by_elem; [left | right; apply IH, H].
Qed.

Lemma limit_offset_elem {A : Type} (limit offset : Z) (y : A) (l : list A) :
  y ∈ Query.limit_offset limit offset l -> y ∈ l.
Proof.
  unfold Query.limit_offset.
  destruct (limit <? 0).
  - intros H. exact (subseteq_drop _ _ _ H).
  - intros H. apply (subseteq_drop (Z.to_nat offset) l).
    exact (subseteq_take _ _ _ H).
Qed.

Lemma decode_if_set_other (key other : string) (fallback : JsValue)
  (row : gmap string JsValue) :
  key <> other -> decode_if_set key fallback row !! other = row !! other.
Proof.
  intros Hne. unfold decode_if_set.
  destruct (row !! key) as [v|]; [|reflexivity].
  destruct (Js.truthy v); [|reflexivity].
  apply lookup_insert_ne. exact Hne.
Qed.

(** The columns that are no JSON field reach the client as stored. *)
Lemma present_bug_other (r : gmap string SqlValue) (c : string) :
  Req.mem c bug_json_fields = false ->
  present_bug r !! c = Sql.to_js <$> r !! c.
Proof.
  intros Hc. unfold present_bug.
  rewrite !decode_if_set_other.
  - apply lookup_fmap.
  - intros <-. discriminate Hc.
  - intros <-. discriminate Hc.
  - intros <-. discriminate Hc.
  - intros <-. discriminate Hc.
  - intros <-. discriminate Hc.
  - intros <-. discriminate Hc.
Qed.

Lemma has_bug_id_lookup (bug_id : string) (r : gmap string SqlValue) :
  has_bug_id bug_id r = true <-> r !! "bug_id" = Some (SText bug_id).
Proof.
  unfold has_bug_id, Sql.where_eq, Sql.get.
  change (Sql.coerce (Sql.affinity_of Schema.bugs "bug_id") (SText bug_id))
    with (SText bug_id).
  destruct (r !! "bug_id") as [[| |s]|]; simpl.
  - split; [discriminate | intros [=]].
  - split; [discriminate | intros [=]].
  - split.
    + intros ->%String.eqb_eq. reflexivity.
    + intros [= ->]. apply String.eqb_refl.
  - split; discriminate.
Qed.

Lemma present_bug_id (bug_id : string) (r : gmap string SqlValue) :
  present_bug r !! "bug_id" = Some (JStr bug_id) <-> has_bug_id bug_id r = true.
Proof.
  rewrite present_bug_other by reflexivity.
  rewrite has_bug_id_lookup.
  destruct (r !! "bug_id") as [[| |s]|]; simpl.
  - split; [discriminate | intros [=]].
  - split; [discriminate | intros [=]].
  - split; [intros [= ->] | intros [= ->]]; reflexivity.
  - split; discriminate.
Qed.

Lemma mark_deleted_is_deleted (now : string) (r : gmap string SqlValue) :
  not_deleted (mark_deleted now r) = false.
Proof.
  unfold not_deleted, mark_deleted, Sql.get.
  rewrite !lookup_insert_ne by discriminate.
  rewrite lookup_insert_eq. reflexivity.
Qed.

(** The WHERE clause of a listing that asks for [show_deleted=false]. *)
Lemma bugs_where_hides_deleted (q : Query) (r : gmap string SqlValue) :
  Req.field "show_deleted" q = Some "false" ->
  bugs_where q r = true -> not_deleted r = true.
Proof.
  intros Hq. unfold bugs_where. rewrite Hq. simpl.
  destruct (not_deleted r); [reflexivity|]. simpl. discriminate.
Qed.

End ListingFacts.

(** C4 (as stated, on the sample store): after BUG-1 is deleted, the listing
    with no filter still shows it, after BUG-2. *)
Lemma default_listing_shows_deleted_bug :
  let st' := snd (delete_bug Sample.t1 "BUG-1" [] Sample.with_bugs) in
  map (fun jr => (jr !! "bug_id", jr !! "is_deleted"))
      (sent_rows (@get_bugs StdJson.runtime [] st'))
  = [ (Some (JStr "BUG-2"), Some (jint 0));
      (Some (JStr "BUG-1"), Some (jint 1)) ].
Proof. vm_compute. reflexivity. Qed.

(** C4 (amended): for an existing bug, DELETE /api/bugs/:bug_id answers
    success, removes no row and sets is_deleted to 1; a fetch by id then
    still returns the bug; a listing with show_deleted=false shows no row
    with that bug id; the listing with no filter keeps every row, deleted
    or not. *)
Theorem delete_bug_soft `{RT : JsRuntime}
  (now bug_id : string) (body : Body) (st : Store) (row : gmap string SqlValue) :
  Sql.select_one (has_bug_id bug_id) (bugs st) = Some row ->
  let st' := snd (delete_bug now bug_id body st) in
  fst (delete_bug now bug_id body st)
  = ok (PSuccess "Bug deleted successfully" [])
  /\ length (bugs st') = length (bugs st)
  /\ get_bug bug_id st' = ok (PRow (present_bug (mark_deleted now row)))
  /\ mark_deleted now row !! "is_deleted" = Some (sint 1)
  /\ (forall (q : Query) (jr : gmap string JsValue),
        Req.field "show_deleted" q = Some "false" ->
        jr ∈ sent_rows (get_bugs q st') ->
        jr !! "bug_id" <> Some (JStr bug_id))
  /\ (forall r : gmap string SqlValue, bugs_where [] r = true).
Proof.
  intros Hrow st'. subst st'.
  split; [exact (delete_bug_found now bug_id body st row Hrow)|].
  split; [rewrite delete_bug_bugs; apply length_map|].
  split.
  { unfold get_bug. rewrite delete_bug_bugs.
    fold (has_bug_id bug_id).
    rewrite (select_one_map (has_bug_id bug_id)
               (fun r => if has_bug_id bug_id r then mark_deleted now r else r)).
    - rewrite Hrow. simpl.
      destruct (select_one_holds _ _ _ Hrow) as [-> _]. reflexivity.
    - intros r. destruct (has_bug_id bug_id r) eqn:E; [|exact E].
      rewrite mark_deleted_bug_id. exact E. }
  split.
  { unfold mark_deleted. rewrite !lookup_insert_ne by discriminate.
    apply lookup_insert_eq. }
  split; [|reflexivity].
  intros q jr Hq Hjr Hid.
  unfold get_bugs in Hjr.
  destruct (int_param q "limit" 100) as [limit|]; [|inversion Hjr].
  destruct (int_param q "offset" 0) as [offset|]; [|inversion Hjr].
  simpl in Hjr.
  apply list_elem_of_fmap in Hjr as (r & -> & Hr).
  apply limit_offset_elem, sort_by_elem in Hr.
  apply list_elem_of_filter in Hr as [Hw Hr].
  apply Is_true_true in Hw.
  apply (bugs_where_hides_deleted q r Hq) in Hw.
  apply present_bug_id in Hid.
  rewrite delete_bug_bugs in Hr.
  apply list_elem_of_fmap in Hr as (r0 & -> & _).
  destruct (has_bug_id bug_id r0) eqn:E.
  - rewrite mark_deleted_is_deleted in Hw. discriminate.
  - congruence.
Qed.

Lemma delete_bug_soft_witness :
  Sql.select_one (has_bug_id "BUG-1") (bugs Sample.with_bugs)
  = Some Sample.bug1
  /\ @get_bug StdJson.runtime "BUG-1"
       (snd (delete_bug Sample.t1 "BUG-1" [] Sample.with_bugs))
     = ok (PRow (@present_bug StdJson.runtime
                   (mark_deleted Sample.t1 Sample.bug1))).
Proof.
  assert (H : Sql.select_one (has_bug_id "BUG-1") (bugs Sample.with_bugs)
              = Some Sample.bug1) by (vm_compute; reflexivity).
  split; [exact H|].
  exact (proj1 (proj2 (proj2
           (@delete_bug_soft StdJson.runtime Sample.t1 "BUG-1" []
              Sample.with_bugs Sample.bug1 H)))).
Defined.

(** ** Deleting a user *)

Section UserDeleteFacts.

(** [user.role === 'admin'] and [role = 'admin'] agree. *)
Lemma role_is_admin (user : gmap string SqlValue) :
  Js.strict_eq (Sql.to_js (Sql.get user "role")) (JStr "admin") = is_admin user.
Proof.
  unfold is_admin. destruct (Sql.get user "role"); reflexivity.
Qed.

Lemma delete_user_last_admin (id : string) (st : Store)
  (user : gmap string SqlValue) :
  Sql.select_one (has_user_id id) (users st) = Some user ->
  is_admin user = true ->
  other_admins id st = O ->
  delete_user id st = (bad_request "Cannot delete the last admin user", st).
Proof.
  intros Huser Hadmin Hothers. unfold delete_user.
  fold (has_user_id id). rewrite Huser, role_is_admin, Hadmin, Hothers.
  reflexivity.
Qed.

Lemma delete_user_removes (id : string) (st : Store)
  (user : gmap string SqlValue) :
  Sql.select_one (has_user_id id) (users st) = Some user ->
  (is_admin user = false \/ other_admins id st <> O) ->
  delete_user id st
  = (ok (PSuccess "User deleted successfully" []),
     set_users (fst (Sql.delete (has_user_id id) (users st))) st).
Proof.
  intros Huser Hfree. unfold delete_user.
  fold (has_user_id id). rewrite Huser, role_is_admin.
  destruct Hfree as [-> | Hothers]; [reflexivity|].
  destruct (other_admins id st); [congruence|].
  rewrite andb_false_r. reflexivity.
Qed.

Lemma get_user_after_delete (id : string) (st : Store) :
  get_user id (set_users (fst (Sql.delete (has_user_id id) (users st))) st)
  = not_found "User not found".
Proof.
  unfold get_user. fold (has_user_id id). cbn [users set_users].
  rewrite select_one_delete. reflexivity.
Qed.

Lemma ts_delete_update (p : gmap string SqlValue -> bool) (t : Table) :
  Sql.update Ts.users_schema p [("is_active", sint 0)] t
  = Some (map (fun r => if p r then deactivated r else r) t,
          Sql.count_where p t).
Proof.
  apply (update_ok Ts.users_schema p [("is_active", sint 0)]
           [("is_active", sint 0)]).
  - reflexivity.
  - intros r. unfold Sql.written_ok, Sql.apply_sets, Sql.get.
    cbn [fold_left forallb fst snd]. rewrite lookup_insert_eq. reflexivity.
  - intros r t'. reflexivity.
Qed.

Lemma ts_delete_user_found (id : string) (t : Table) (user : gmap string SqlValue) :
  Sql.select_one (ts_has_user_id id) t = Some user ->
  Ts.delete_user id t
  = (ok (PSuccess "User deactivated successfully" []),
     map (fun r => if ts_has_user_id id r then deactivated r else r) t).
Proof.
  intros Huser%select_one_Some_count. unfold Ts.delete_user.
  rewrite ts_delete_update. fold (ts_has_user_id id).
  destruct (Sql.count_where _ _); [congruence|reflexivity].
Qed.

Lemma deactivated_id (id : string) (r : gmap string SqlValue) :
  ts_has_user_id id (deactivated r) = ts_has_user_id id r.
Proof.
  unfold ts_has_user_id, Sql.where_eq, Sql.get, deactivated.
  rewrite lookup_insert_ne by discriminate. reflexivity.
Qed.

Lemma ts_get_user_after_delete (id : string) (t : Table)
  (user : gmap string SqlValue) :
  Sql.select_one (ts_has_user_id id) t = Some user ->
  Ts.get_user id (snd (Ts.delete_user id t))
  = ok (PRow (project Ts.user_columns (deactivated user))).
Proof.
  intros Huser. rewrite (ts_delete_user_found id t user Huser). simpl snd.
  unfold Ts.get_user. fold (ts_has_user_id id).
  rewrite (select_one_map (ts_has_user_id id)
             (fun r => if ts_has_user_id id r then deactivated r else r)).
  - rewrite Huser. simpl.
    destruct (select_one_holds _ _ _ Huser) as [-> _]. reflexivity.
  - intros r. destruct (ts_has_user_id id r) eqn:E; [|exact E].
    rewrite deactivated_id. exact E.
Qed.

End UserDeleteFacts.

(** C6 (as stated, on the TypeScript router): the sample table has exactly
    one admin, user 1; the delete request for user 1 is answered with
    success and the row of user 1 is changed. *)
Lemma ts_delete_last_admin_not_rejected :
  Sql.count_where is_admin Sample.ts_users = 1%nat
  /\ is_admin Sample.ts_admin = true
  /\ Ts.delete_user "1" Sample.ts_users
     = (ok (PSuccess "User deactivated successfully" []),
        [deactivated Sample.ts_admin; Sample.ts_tester])
  /\ deactivated Sample.ts_admin <> Sample.ts_admin.
Proof.
  split; [vm_compute; reflexivity|].
  split; [vm_compute; reflexivity|].
  split; [vm_compute; reflexivity|].
  intros H.
  assert (Hl : deactivated Sample.ts_admin !! "is_active"
               = Sample.ts_admin !! "is_active") by (rewrite H; reflexivity).
  vm_compute in Hl. discriminate Hl.
Qed.

(** C6 (amended): in [server.js], a delete request for an admin while no
    other user has the role admin is answered 400 'Cannot delete the last
    admin user' and the store is unchanged; a delete request for an existing
    user while another admin exists is not rejected: it answers success and
    removes the row.  The users router of the TypeScript server has no such
    rule: its delete answers success for every existing user. *)
Theorem delete_user_last_admin_rule :
  (forall (id : string) (st : Store) (user : gmap string SqlValue),
      Sql.select_one (has_user_id id) (users st) = Some user ->
      is_admin user = true ->
      other_admins id st = O ->
      delete_user id st
      = (bad_request "Cannot delete the last admin user", st))
  /\ (forall (id : string) (st : Store) (user : gmap string SqlValue),
        Sql.select_one (has_user_id id) (users st) = Some user ->
        other_admins id st <> O ->
        delete_user id st
        = (ok (PSuccess "User deleted successfully" []),
           set_users (fst (Sql.delete (has_user_id id) (users st))) st))
  /\ (forall (id : string) (t : Table) (user : gmap string SqlValue),
        Sql.select_one (ts_has_user_id id) t = Some user ->
        fst (Ts.delete_user id t)
        = ok (PSuccess "User deactivated successfully" [])).
Proof.
  split; [exact delete_user_last_admin|].
  split.
  - intros id st user Huser Hothers.
    apply (delete_user_removes id st user Huser). right. exact Hothers.
  - intros id t user Huser.
    rewrite (ts_delete_user_found id t user Huser). reflexivity.
Qed.

Lemma delete_user_last_admin_rule_witness :
  Sql.select_one (has_user_id "admin-001") (users Sample.with_users)
  = Some Sample.admin1
  /\ is_admin Sample.admin1 = true
  /\ other_admins "admin-001" Sample.with_users = O
  /\ delete_user "admin-001" Sample.with_users
     = (bad_request "Cannot delete the last admin user", Sample.with_users).
Proof.
  assert (H1 : Sql.select_one (has_user_id "admin-001")
                 (users Sample.with_users) = Some Sample.admin1)
    by (vm_compute; reflexivity).
  assert (H2 : is_admin Sample.admin1 = true) by (vm_compute; reflexivity).
  assert (H3 : other_admins "admin-001" Sample.with_users = O)
    by (vm_compute; reflexivity).
  split; [exact H1|]. split; [exact H2|]. split; [exact H3|].
  exact (proj1 delete_user_last_admin_rule "admin-001" Sample.with_users
           Sample.admin1 H1 H2 H3).
Defined.

(** C7 (as stated, on [server.js]): the tester of the sample store is not the
    last admin; the delete request removes the row, and the fetch of that id
    answers 404. *)
Lemma delete_user_removes_the_row :
  let st' := snd (delete_user "tester-001" Sample.with_users) in
  fst (delete_user "tester-001" Sample.with_users)
  = ok (PSuccess "User deleted successfully" [])
  /\ users st' = [Sample.admin1]
  /\ get_user "tester-001" st' = not_found "User not found".
Proof. vm_compute. repeat split; reflexivity. Qed.

(** C7 (amended): in the users router of the TypeScript server, the delete
    of an existing user sets is_active to 0 and removes no row, and a fetch
    of that id then returns the row, deactivated.  In [server.js], the
    delete of an existing user who is not the last admin removes the row,
    and a fetch of that id then answers 404. *)
Theorem delete_user_policies :
  (forall (id : string) (t : Table) (user : gmap string SqlValue),
      Sql.select_one (ts_has_user_id id) t = Some user ->
      Ts.delete_user id t
      = (ok (PSuccess "User deactivated successfully" []),
         map (fun r => if ts_has_user_id id r then deactivated r else r) t)
      /\ length (snd (Ts.delete_user id t)) = length t
      /\ Ts.get_user id (snd (Ts.delete_user id t))
         = ok (PRow (project Ts.user_columns (deactivated user)))
      /\ deactivated user !! "is_active" = Some (sint 0))
  /\ (forall (id : string) (st : Store) (user : gmap string SqlValue),
        Sql.select_one (has_user_id id) (users st) = Some user ->
        (is_admin user = false \/ other_admins id st <> O) ->
        fst (delete_user id st) = ok (PSuccess "User deleted successfully" [])
        /\ get_user id (snd (delete_user id st)) = not_found "User not found").
Proof.
  split.
  - intros id t user Huser.
    split; [exact (ts_delete_user_found id t user Huser)|].
    split.
    { rewrite (ts_delete_user_found id t user Huser). apply length_map. }
    split; [exact (ts_get_user_after_delete id t user Huser)|].
    apply lookup_insert_eq.
  - intros id st user Huser Hfree.
    rewrite (delete_user_removes id st user Huser Hfree).
    split; [reflexivity|]. apply get_user_after_delete.
Qed.

Lemma delete_user_policies_witness :
  Sql.select_one (ts_has_user_id "2") Sample.ts_users = Some Sample.ts_tester
  /\ Ts.get_user "2" (snd (Ts.delete_user "2" Sample.ts_users))
     = ok (PRow (project Ts.user_columns (deactivated Sample.ts_tester))).
Proof.
  assert (H : Sql.select_one (ts_has_user_id "2") Sample.ts_users
              = Some Sample.ts_tester) by (vm_compute; reflexivity).
  split; [exact H|].
  exact (proj1 (proj2 (proj2
           (proj1 delete_user_policies "2" Sample.ts_users Sample.ts_tester H)))).
Defined.

(** ** Tests by status *)

Section StatsFacts.

Implicit Types (groups : list (SqlValue * nat)) (b k : SqlValue).

Lemma count_of_nil b : Stats.count_of b [] = O.
Proof. reflexivity. Qed.

Lemma count_of_cons b k (n : nat) groups :
  Stats.count_of b ((k, n) :: groups)
  = if decide (k = b) then n else Stats.count_of b groups.
Proof.
  unfold Stats.count_of. simpl.
  destruct (decide (k = b)) as [->|Hne].
  - rewrite bool_decide_eq_true_2; reflexivity.
  - rewrite bool_decide_eq_false_2; [reflexivity|exact Hne].
Qed.

Lemma count_of_tally b k groups :
  Stats.count_of b (Stats.tally k groups)
  = if decide (k = b) then S (Stats.count_of b groups)
    else Stats.count_of b groups.
Proof.
  induction groups as [|[k' n] groups IH].
  - simpl. rewrite count_of_cons, count_of_nil.
    destruct (decide (k = b)); reflexivity.
  - simpl. destruct (decide (k' = k)) as [->|Hne].
    + rewrite !count_of_cons. destruct (decide (k = b)); reflexivity.
    + rewrite !count_of_cons, IH.
      destruct (decide (k' = b)) as [->|]; [|reflexivity].
      destruct (decide (k = b)) as [->|]; [congruence|reflexivity].
Qed.

Lemma tally_keys k k' groups :
  k' ∈ map fst (Stats.tally k groups) -> k' = k \/ k' ∈ map fst groups.
Proof.
  induction groups as [|[k0 n] groups IH]; simpl.
  - intros ->%list_elem_of_singleton. left. reflexivity.
  - destruct (decide (k0 = k)) as [->|Hne]; simpl.
    + intros H. right. exact H.
    + intros [->|H]%elem_of_cons; [right; left|].
      destruct (IH H) as [->|H']; [left; reflexivity|right; right; exact H'].
Qed.

Lemma tally_NoDup k groups :
  NoDup (map fst groups) -> NoDup (map fst (Stats.tally k groups)).
Proof.
  induction groups as [|[k0 n] groups IH]; simpl; intros Hnd.
  - apply NoDup_singleton.
  - apply NoDup_cons in Hnd as [Hk0 Hnd].
    destruct (decide (k0 = k)) as [->|Hne]; simpl.
    + apply NoDup_cons. split; assumption.
    + apply NoDup_cons. split; [|apply IH, Hnd].
      intros [->|H]%tally_keys; [congruence|contradiction].
Qed.

Lemma fold_tally_NoDup (key : gmap string SqlValue -> SqlValue) (t : Table)
  groups :
  NoDup (map fst groups) ->
  NoDup (map fst (fold_left (fun g r => Stats.tally (key r) g) t groups)).
Proof.
  revert groups. induction t as [|r t IH]; intros groups Hnd; [exact Hnd|].
  simpl. apply IH, tally_NoDup, Hnd.
Qed.

Lemma fold_tally_count (key : gmap string SqlValue -> SqlValue) (t : Table)
  groups b :
  Stats.count_of b (fold_left (fun g r => Stats.tally (key r) g) t groups)
  = (Stats.count_of b groups
     + Sql.count_where (fun r => bool_decide (key r = b)) t)%nat.
Proof.
  revert groups. induction t as [|r t IH]; intros groups.
  - simpl. unfold Sql.count_where. simpl. lia.
  - simpl. rewrite IH, count_of_tally.
    unfold Sql.count_where. rewrite filter_cons.
    destruct (decide (key r = b)) as [Hk|Hk].
    + rewrite bool_decide_eq_true_2 by exact Hk.
      rewrite decide_True by exact I. simpl. lia.
    + rewrite bool_decide_eq_false_2 by exact Hk.
      rewrite decide_False by (intros H; exact H). lia.
Qed.

Lemma count_of_absent b groups :
  b ∉ map fst groups -> Stats.count_of b groups = O.
Proof.
  induction groups as [|[k n] groups IH]; [reflexivity|].
  simpl. intros Hb. rewrite count_of_cons.
  destruct (decide (k = b)) as [->|_].
  - exfalso. apply Hb. left.
  - apply IH. intros H. apply Hb. right. exact H.
Qed.

Lemma count_of_insert_by (before : SqlValue * nat -> SqlValue * nat -> bool)
  (x : SqlValue * nat) groups b :
  fst x ∉ map fst groups ->
  Stats.count_of b (Query.insert_by before x groups)
  = if decide (fst x = b) then snd x else Stats.count_of b groups.
Proof.
  destruct x as [k n]. simpl.
  induction groups as [|[k' n'] groups IH]; intros Hk.
  - simpl. rewrite count_of_cons. reflexivity.
  - simpl. destruct (before (k, n) (k', n')).
    + rewrite count_of_cons. reflexivity.
    + rewrite !count_of_cons, IH.
      * destruct (decide (k' = b)) as [->|]; [|reflexivity].
        destruct (decide (k = b)) as [->|]; [|reflexivity].
        exfalso. apply Hk. left.
      * intros H. apply Hk. right. exact H.
Qed.

Lemma sort_by_keys (before : SqlValue * nat -> SqlValue * nat -> bool)
  k groups :
  k ∈ map fst (Query.sort_by before groups) -> k ∈ map fst groups.
Proof.
  intros (x & -> & Hx)%list_elem_of_fmap.
  apply list_elem_of_fmap. exists x. split; [reflexivity|].
  apply (sort_by_elem before x groups Hx).
Qed.

(** Putting the groups in order changes no count. *)
Lemma count_of_sort_by (before : SqlValue * nat -> SqlValue * nat -> bool)
  groups b :
  NoDup (map fst groups) ->
  Stats.count_of b (Query.sort_by before groups) = Stats.count_of b groups.
Proof.
  induction groups as [|[k n] groups IH]; [reflexivity|].
  simpl. intros [Hk Hnd]%NoDup_cons.
  rewrite count_of_insert_by.
  - simpl. rewrite count_of_cons, IH by exact Hnd. reflexivity.
  - simpl. intros H%sort_by_keys. contradiction.
Qed.

(** The count of a bucket is the number of rows the CASE expression sends
    to it. *)
Lemma group_count_counts (key : gmap string SqlValue -> SqlValue) (t : Table) b :
  Stats.count_of b (Stats.group_count key t)
  = Sql.count_where (fun r => bool_decide (key r = b)) t.
Proof.
  unfold Stats.group_count.
  rewrite count_of_sort_by.
  - rewrite fold_tally_count. reflexivity.
  - apply fold_tally_NoDup. apply NoDup_nil_2.
Qed.

Lemma version_bucket_named (a b : SqlValue) :
  Stats.same_modulo_case_and_space a b ->
  Stats.version_named a = true ->
  Stats.version_status_bucket a = Stats.version_status_bucket b.
Proof.
  unfold Stats.same_modulo_case_and_space, Stats.version_named,
    Stats.version_status_bucket.
  intros <-. generalize (Stats.UPPER (Stats.TRIM a)). intros n.
  unfold Stats.is_in. cbn [existsb].
  destruct (Sql.eqv n (SText "PASS")); [reflexivity|].
  destruct (Sql.eqv n (SText "PASSED")); [reflexivity|].
  destruct (Sql.eqv n (SText "FAIL")); [reflexivity|].
  destruct (Sql.eqv n (SText "FAILED")); [reflexivity|].
  destruct (Sql.eqv n (SText "BLOCKED")); [reflexivity|].
  destruct (Sql.eqv n (SText "NOT STARTED")); [reflexivity|].
  destruct (Sql.eqv n (SText "NOTSTARTED")); [reflexivity|].
  discriminate.
Qed.

Lemma version_bucket_unnamed (a : SqlValue) :
  Stats.version_named a = false ->
  Stats.version_status_bucket a = Stats.TRIM a.
Proof.
  unfold Stats.version_named, Stats.version_status_bucket, Stats.is_in.
  cbn [existsb].
  destruct (Sql.eqv _ (SText "PASS")); [discriminate|].
  destruct (Sql.eqv _ (SText "PASSED")); [discriminate|].
  destruct (Sql.eqv _ (SText "FAIL")); [discriminate|].
  destruct (Sql.eqv _ (SText "FAILED")); [discriminate|].
  destruct (Sql.eqv _ (SText "BLOCKED")); [discriminate|].
  destruct (Sql.eqv _ (SText "NOT STARTED")); [discriminate|].
  destruct (Sql.eqv _ (SText "NOTSTARTED")); [discriminate|].
  reflexivity.
Qed.

Lemma bucket_named (a b : SqlValue) :
  Stats.UPPER a = Stats.UPPER b ->
  Stats.named a = true ->
  Stats.status_bucket a = Stats.status_bucket b.
Proof.
  unfold Stats.named, Stats.status_bucket.
  intros <-. generalize (Stats.UPPER a). intros n.
  unfold Stats.is_in. cbn [existsb].
  destruct (Sql.eqv n (SText "PASS")); [reflexivity|].
  destruct (Sql.eqv n (SText "FAIL")); [reflexivity|].
  destruct (Sql.eqv n (SText "BLOCKED")); [reflexivity|].
  destruct (Sql.eqv n (SText "NOT STARTED")); [reflexivity|].
  discriminate.
Qed.

End StatsFacts.




(** ** Versions: the current flag *)

(** C2 (at the failing request): version 1.0 is the only current version;
    PUT /api/versions/VER_2_0 with the body [{"IS_CURRENT": true}] is
    answered with success; [updates.is_current] is undefined, so no flag is
    unset, while the statement [SET IS_CURRENT = ?] writes the column
    is_current: both versions are current afterwards. *)
Theorem put_version_key_case_two_current :
  let body := [("IS_CURRENT", JBool true)] in
  let result :=
    @put_version StdJson.runtime Sample.t1 "VER_2_0" body Sample.with_versions in
  current_count Sample.with_versions = 1%nat
  /\ Req.field "is_current" body = None
  /\ fst result = ok (PSuccess "Version updated successfully" [])
  /\ map (fun r => (Sql.get r "version_id", Sql.get r "is_current"))
         (versions (snd result))
     = [ (SText "VER_1_0", sint 1); (SText "VER_2_0", sint 1) ]
  /\ current_count (snd result) = 2%nat.
Proof. vm_compute. repeat split; reflexivity. Qed.

(** C5 (at the failing request): no version has the id VER_9_9;
    PUT /api/versions/VER_9_9 with the body [{"is_current": true}] is
    answered 404 'Version not found', and by then the other versions have
    lost the current flag and have a new updated_at. *)
Theorem put_version_not_found_after_unset :
  let body := [("is_current", JBool true)] in
  let result :=
    @put_version StdJson.runtime Sample.t1 "VER_9_9" body Sample.with_versions in
  Sql.select_one
    (Sql.where_eq Schema.versions "version_id" (SText "VER_9_9"))
    (versions Sample.with_versions) = None
  /\ fst result = not_found "Version not found"
  /\ map (fun r => (Sql.get r "version_id", Sql.get r "is_current",
                    Sql.get r "updated_at"))
         (versions Sample.with_versions)
     = [ (SText "VER_1_0", sint 1, SText Sample.t0);
         (SText "VER_2_0", sint 0, SText Sample.t0) ]
  /\ map (fun r => (Sql.get r "version_id", Sql.get r "is_current",
                    Sql.get r "updated_at"))
         (versions (snd result))
     = [ (SText "VER_1_0", sint 0, SText Sample.t1);
         (SText "VER_2_0", sint 0, SText Sample.t1) ].
Proof. vm_compute. repeat split; reflexivity. Qed.

(** ** Updates that name no field *)

(** C9 (at the failing request): PUT /api/custom-tests/TC-1 with an empty
    body, or with a body of [id] and [created_at] only, leaves no field to
    update; the handler still runs
    [UPDATE custom_tests SET updated_at = CURRENT_TIMESTAMP], answers
    success, and the row has a new updated_at. *)
Theorem put_custom_test_empty_body_writes :
  let result (body : Body) :=
    @put_custom_test StdJson.runtime Sample.t1 "TC-1" body Sample.with_tests in
  let only_ids := [("id", jint 7); ("created_at", JStr "2020-01-01")] in
  @dynamic_sets StdJson.runtime ["test_id"; "id"; "created_at"]
    ["steps"; "prerequisites"; "tags"] only_ids = []
  /\ fst (result []) = ok (PSuccess "Custom test updated successfully" [])
  /\ fst (result only_ids) = ok (PSuccess "Custom test updated successfully" [])
  /\ map (fun r => Sql.get r "updated_at") (custom_tests Sample.with_tests)
     = [SText Sample.t0]
  /\ map (fun r => Sql.get r "updated_at") (custom_tests (snd (result [])))
     = [SText Sample.t1]
  /\ map (fun r => Sql.get r "updated_at") (custom_tests (snd (result only_ids)))
     = [SText Sample.t1].
Proof. vm_compute. repeat split; reflexivity. Qed.

(** The sibling handlers stop before any statement when no field is left. *)
Lemma put_user_no_fields `{RT : JsRuntime} (now id : string) (updates : Body)
  (st : Store) :
  user_sets updates = Some [] ->
  put_user now id updates st = (Some (bad_request "No fields to update"), st).
Proof. intros H. unfold put_user. rewrite H. reflexivity. Qed.

Lemma dynamic_sets_keys `{RT : JsRuntime} (skipped json_fields : list string)
  (updates : Body) (key : string) (v : JsValue) :
  dynamic_sets skipped json_fields updates = [] ->
  Req.field key updates = Some v -> Req.mem key skipped = true.
Proof.
  induction updates as [|[k x] updates IH]; simpl; [discriminate|].
  destruct (Req.mem k skipped) eqn:Hk; [|discriminate].
  intros Hrest. destruct (String.eqb k key) eqn:E.
  - apply String.eqb_eq in E. subst. intros _. exact Hk.
  - apply IH, Hrest.
Qed.

Lemma put_version_no_fields `{RT : JsRuntime} (now version_id : string)
  (updates : Body) (st : Store) :
  dynamic_sets ["version_id"; "id"; "created_at"] version_json_fields updates
  = [] ->
  put_version now version_id updates st
  = (bad_request "No fields to update", st).
Proof.
  intros Hsets. unfold put_version.
  destruct (Req.field "is_current" updates) as [v|] eqn:Hcur.
  - pose proof (dynamic_sets_keys _ _ _ _ _ Hsets Hcur) as H. discriminate H.
  - simpl. rewrite Hsets. simpl. destruct st; reflexivity.
Qed.

(** The sibling handlers find out that the id is absent before they write. *)
Lemma put_bug_not_found `{RT : JsRuntime} (now bug_id : string) (body : Body)
  (st : Store) :
  Sql.select_one (has_bug_id bug_id) (bugs st) = None ->
  put_bug now bug_id body st = (not_found "Bug not found", st).
Proof.
  intros H. unfold put_bug. fold (has_bug_id bug_id). rewrite H. reflexivity.
Qed.

Lemma put_feature_not_found `{RT : JsRuntime} (now feature_id : string)
  (body : Body) (st : Store) :
  Sql.select_one (has_feature_id feature_id) (upcoming_features st) = None ->
  put_feature now feature_id body st = (not_found "Feature not found", st).
Proof.
  intros H. unfold put_feature. fold (has_feature_id feature_id).
  rewrite H. reflexivity.
Qed.

Lemma delete_user_not_found (id : string) (st : Store) :
  Sql.select_one (has_user_id id) (users st) = None ->
  delete_user id st = (not_found "User not found", st).
Proof.
  intros H. unfold delete_user. fold (has_user_id id). rewrite H. reflexivity.
Qed.

Lemma map_unmatched (p : gmap string SqlValue -> bool)
  (g : gmap string SqlValue -> gmap string SqlValue) (t : Table) :
  Sql.count_where p t = O -> map (fun r => if p r then g r else r) t = t.
Proof.
  unfold Sql.count_where. induction t as [|r t IH]; [reflexivity|].
  rewrite filter_cons. simpl.
  destruct (decide (Is_true (p r))) as [Hp|Hp]; [discriminate|].
  intros Hn. destruct (p r); [exfalso; apply Hp; exact I|].
  f_equal. apply IH, Hn.
Qed.

Lemma delete_bug_not_found (now bug_id : string) (body : Body) (st : Store) :
  Sql.select_one (has_bug_id bug_id) (bugs st) = None ->
  delete_bug now bug_id body st = (not_found "Bug not found", st).
Proof.
  intros H%select_one_None_count. unfold delete_bug.
  fold (delete_bug_sets now). fold (has_bug_id bug_id).
  rewrite delete_bug_update, H, (map_unmatched _ _ _ H).
  destruct st; reflexivity.
Qed.

(** ** The change history of bugs and features *)

Section HistoryFacts.
Context `{RT : JsRuntime}.

Implicit Types (h t : Table) (r : gmap string SqlValue).

Lemma no_row_above (N : Z) t :
  integer_keys t ->
  fold_right Z.max 0 (map rowid_of t) < N ->
  Sql.count_where (fun r' => Sql.eqv (Sql.get r' "id") (sint N)) t = O.
Proof.
  unfold Sql.count_where.
  induction t as [|r t IH]; intros Hkeys Hmax; [reflexivity|].
  apply Forall_cons in Hkeys as [[m Hm] Hkeys].
  simpl in Hmax. rewrite filter_cons.
  assert (Hr : rowid_of r = m) by (unfold rowid_of, Sql.get; rewrite Hm; reflexivity).
  rewrite Hr in Hmax.
  destruct (decide _) as [Heq|_].
  - exfalso. unfold Sql.get in Heq. rewrite Hm in Heq. simpl in Heq.
    apply Is_true_true, Z.eqb_eq in Heq. lia.
  - apply IH; [exact Hkeys|lia].
Qed.

Lemma next_rowid_fresh t :
  integer_keys t ->
  Sql.count_where
    (fun r' => Sql.eqv (Sql.get r' "id") (sint (Sql.next_rowid "id" t))) t = O.
Proof.
  intros Hkeys. apply no_row_above; [exact Hkeys|].
  unfold Sql.next_rowid. fold rowid_of.
  change (map (fun r => rowid_of r) t) with (map rowid_of t). lia.
Qed.

Lemma count_where_app (p : gmap string SqlValue -> bool) t t' :
  Sql.count_where p (t ++ t')%list = (Sql.count_where p t + Sql.count_where p t')%nat.
Proof. unfold Sql.count_where. rewrite filter_app, length_app. reflexivity. Qed.

Lemma count_where_one (p : gmap string SqlValue -> bool) r :
  (Sql.count_where p [r] <= 1)%nat.
Proof.
  unfold Sql.count_where. rewrite filter_cons, filter_nil.
  destruct (decide _); simpl; lia.
Qed.

(** An INSERT into a table whose only key is the generated rowid. *)
Lemma insert_fresh (sch : Schema) (now : string)
  (vals rs : list (string * SqlValue)) t :
  Sql.resolve_sets sch vals = Some rs ->
  sch_unique sch = ["id"] ->
  integer_keys t ->
  Sql.get (Sql.new_row sch now rs t) "id" = sint (Sql.next_rowid "id" t) ->
  forallb (fun c => Sql.col_ok c (Sql.get (Sql.new_row sch now rs t) (col_name c)))
          (sch_cols sch) = true ->
  Sql.insert sch now vals t = Some (t ++ [Sql.new_row sch now rs t])%list.
Proof.
  intros Hrs Hu Hkeys Hid Hok. unfold Sql.insert. rewrite Hrs, Hok.
  unfold Sql.unique_ok. rewrite Hu. cbn [forallb].
  rewrite Hid, count_where_app, (next_rowid_fresh t Hkeys).
  pose proof (count_where_one
                (fun r' => Sql.eqv (Sql.get r' "id") (sint (Sql.next_rowid "id" t)))
                (Sql.new_row sch now rs t)) as Hone.
  apply Nat.leb_le in Hone. simpl Nat.add. rewrite Hone.
  rewrite !orb_true_r. reflexivity.
Qed.

Lemma col_ok_free (c : Column) (v : SqlValue) :
  col_notnull c = false -> col_check c = Schema.any -> Sql.col_ok c v = true.
Proof.
  intros Hn Hc. unfold Sql.col_ok. rewrite Hn, Hc. simpl.
  apply orb_true_r.
Qed.

Ltac settle_col_ok :=
  repeat match goal with
    | |- context [Sql.col_ok ?c ?v] =>
        first
          [ rewrite (col_ok_free c v) by reflexivity
          | let H := fresh "Hok" in
            assert (H : Sql.col_ok c v = true) by reflexivity;
            rewrite H; clear H ]
    end.

Lemma col_ok_text_nn (name : string) (v : SqlValue) :
  Sql.is_null v = false -> Sql.col_ok (Schema.text_nn name) v = true.
Proof.
  intros Hv. unfold Sql.col_ok. simpl. rewrite Hv. reflexivity.
Qed.

Lemma bug_history_new_row (now bug_id action : string)
  (f o n ci cn : SqlValue) h :
  Sql.new_row Schema.bug_history now
    [ ("bug_id", SText bug_id); ("action", SText action); ("field_name", f);
      ("old_value", o); ("new_value", n); ("changed_by_id", ci);
      ("changed_by_name", cn) ] h
  = bug_history_row now bug_id action f o n ci cn h.
Proof. vm_compute. reflexivity. Qed.

(** One INSERT INTO bug_history appends one row. *)
Lemma log_bug_history_appends (now bug_id action : string)
  (f o n ci cn : SqlValue) h :
  integer_keys h ->
  exists r,
    log_bug_history now
      [ ("bug_id", SText bug_id); ("action", SText action); ("field_name", f);
        ("old_value", o); ("new_value", n); ("changed_by_id", ci);
        ("changed_by_name", cn) ] h
    = (h ++ [r])%list
    /\ history_view r
       = (SText action, Sql.coerce AffText f, Sql.coerce AffText o,
          Sql.coerce AffText n)
    /\ exists m, r !! "id" = Some (SNum m O).
Proof.
  intros Hkeys.
  exists (bug_history_row now bug_id action (Sql.coerce AffText f)
            (Sql.coerce AffText o) (Sql.coerce AffText n)
            (Sql.coerce AffText ci) (Sql.coerce AffText cn) h).
  split; [|split].
  - unfold log_bug_history.
    rewrite (insert_fresh Schema.bug_history now _
               [ ("bug_id", SText bug_id); ("action", SText action);
                 ("field_name", Sql.coerce AffText f);
                 ("old_value", Sql.coerce AffText o);
                 ("new_value", Sql.coerce AffText n);
                 ("changed_by_id", Sql.coerce AffText ci);
                 ("changed_by_name", Sql.coerce AffText cn) ]).
    + rewrite bug_history_new_row. reflexivity.
    + reflexivity.
    + reflexivity.
    + exact Hkeys.
    + rewrite bug_history_new_row. reflexivity.
    + rewrite bug_history_new_row.
      cbn [forallb sch_cols Schema.bug_history].
      settle_col_ok. reflexivity.
  - reflexivity.
  - eexists. reflexivity.
Qed.

Lemma integer_keys_app h r :
  integer_keys h -> (exists m, r !! "id" = Some (SNum m O)) ->
  integer_keys (h ++ [r])%list.
Proof.
  intros Hh Hr. apply Forall_app. split; [exact Hh|].
  apply Forall_cons. split; [exact Hr|apply Forall_nil_2].
Qed.

(** The loop of PUT /api/bugs/:bug_id appends one row per logged key, in
    the order of the keys. *)
Lemma bug_update_log_appends (now bug_id : string)
  (currentBug : gmap string SqlValue) (ci cn : option JsValue)
  (updates : Body) h :
  integer_keys h ->
  exists rows,
    bug_update_log now bug_id currentBug ci cn updates h = (h ++ rows)%list
    /\ map history_view rows
       = map (bug_logged_row currentBug)
             (filter (fun kv => Is_true (bug_logged currentBug kv)) updates).
Proof.
  unfold bug_update_log.
  revert h. induction updates as [|kv updates IH]; intros h Hkeys.
  - exists []. split; [symmetry; apply app_nil_r|reflexivity].
  - cbn [fold_left]. rewrite filter_cons. fold (bug_logged currentBug kv).
    destruct (bug_logged currentBug kv) eqn:Hlog.
    + destruct (log_bug_history_appends now bug_id "Updated"
                  (SText (fst kv))
                  (Sql.bind_opt (row_prop currentBug (fst kv)))
                  (Sql.bind (bug_update_value (fst kv) (snd kv)))
                  (Sql.bind_opt ci) (Sql.bind_opt cn) h Hkeys)
        as (r & Hr & Hview & Hid).
      change (log_bug_history now
                (bug_update_entry bug_id currentBug ci cn kv) h
              = (h ++ [r])%list) in Hr.
      rewrite Hr.
      destruct (IH (h ++ [r])%list (integer_keys_app h r Hkeys Hid))
        as (rows & Hrows & Hviews).
      exists (r :: rows). split.
      * rewrite Hrows, <- app_assoc. reflexivity.
      * rewrite decide_True by exact I.
        cbn [map]. rewrite Hview, Hviews. reflexivity.
    + destruct (IH h Hkeys) as (rows & Hrows & Hviews).
      exists rows. split; [exact Hrows|].
      rewrite decide_False by (intros H; exact H). exact Hviews.
Qed.

Lemma put_bug_history (now bug_id : string) (body : Body) (st : Store)
  (currentBug : gmap string SqlValue) :
  Sql.select_one (has_bug_id bug_id) (bugs st) = Some currentBug ->
  bug_history (snd (put_bug now bug_id body st))
  = bug_update_log now bug_id currentBug
      (Req.field "changed_by_id" body) (Req.field "changed_by_name" body)
      (bug_updates body) (bug_history st).
Proof.
  intros Hcur. unfold put_bug. fold (has_bug_id bug_id). rewrite Hcur.
  fold (bug_updates body).
  destruct (is_empty _); [reflexivity|].
  destruct (Sql.update _ _ _ _) as [[t' n]|]; reflexivity.
Qed.

Lemma feature_history_new_row (now feature_id action : string)
  (f o n cn t : SqlValue) h :
  Sql.new_row Schema.feature_history now
    [ ("feature_id", SText feature_id); ("action", SText action);
      ("field_name", f); ("old_value", o); ("new_value", n);
      ("changed_by_name", cn); ("changed_at", t) ] h
  = <["changed_at" := t]>
      (feature_history_row now feature_id action f o n cn h).
Proof. vm_compute. reflexivity. Qed.

Lemma coerce_text_not_null (v : SqlValue) :
  Sql.is_null v = false -> Sql.is_null (Sql.coerce AffText v) = false.
Proof. destruct v; [discriminate|reflexivity|reflexivity]. Qed.

Lemma bind_truthy_not_null (v : JsValue) :
  Js.truthy v = true -> Sql.is_null (Sql.bind v) = false.
Proof.
  destruct v; try reflexivity; try discriminate.
  simpl. destruct (Js.canon m k). reflexivity.
Qed.

Lemma or_else_truthy (v : option JsValue) (dflt : JsValue) :
  Js.truthy dflt = true -> Js.truthy (Req.or_else v dflt) = true.
Proof.
  intros Hd. destruct v as [x|]; simpl; [|exact Hd].
  destruct (Js.truthy x) eqn:E; [exact E|exact Hd].
Qed.

(** One INSERT INTO feature_history appends one row. *)
Lemma log_feature_history_appends (now feature_id action : string)
  (f o n cn : SqlValue) h :
  integer_keys h ->
  Sql.is_null cn = false ->
  exists r,
    log_feature_history now
      [ ("feature_id", SText feature_id); ("action", SText action);
        ("field_name", f); ("old_value", o); ("new_value", n);
        ("changed_by_name", cn); ("changed_at", SText now) ] h
    = (h ++ [r])%list
    /\ history_view r
       = (SText action, Sql.coerce AffText f, Sql.coerce AffText o,
          Sql.coerce AffText n)
    /\ exists m, r !! "id" = Some (SNum m O).
Proof.
  intros Hkeys Hcn.
  exists (<["changed_at" := Sql.coerce AffNumeric (SText now)]>
            (feature_history_row now feature_id action (Sql.coerce AffText f)
               (Sql.coerce AffText o) (Sql.coerce AffText n)
               (Sql.coerce AffText cn) h)).
  split; [|split].
  - unfold log_feature_history.
    rewrite (insert_fresh Schema.feature_history now _
               [ ("feature_id", SText feature_id); ("action", SText action);
                 ("field_name", Sql.coerce AffText f);
                 ("old_value", Sql.coerce AffText o);
                 ("new_value", Sql.coerce AffText n);
                 ("changed_by_name", Sql.coerce AffText cn);
                 ("changed_at", Sql.coerce AffNumeric (SText now)) ]).
    + rewrite feature_history_new_row. reflexivity.
    + reflexivity.
    + reflexivity.
    + exact Hkeys.
    + rewrite feature_history_new_row. reflexivity.
    + rewrite feature_history_new_row.
      cbn [forallb sch_cols Schema.feature_history].
      rewrite (col_ok_text_nn "changed_by_name")
        by (apply coerce_text_not_null, Hcn).
      settle_col_ok. reflexivity.
  - reflexivity.
  - eexists. reflexivity.
Qed.

Lemma feature_update_log_appends (now feature_id : string)
  (oldFeature : gmap string SqlValue) (changed_by_name : JsValue)
  (updates : Body) h :
  integer_keys h ->
  Js.truthy changed_by_name = true ->
  exists rows,
    feature_update_log now feature_id oldFeature changed_by_name updates h
    = (h ++ rows)%list
    /\ map history_view rows
       = map (feature_logged_row oldFeature)
             (filter (fun kv => Is_true (feature_logged oldFeature kv)) updates).
Proof.
  intros Hkeys Hname. unfold feature_update_log.
  revert h Hkeys. induction updates as [|kv updates IH]; intros h Hkeys.
  - exists []. split; [symmetry; apply app_nil_r|reflexivity].
  - cbn [fold_left]. rewrite filter_cons. fold (feature_logged oldFeature kv).
    destruct (feature_logged oldFeature kv) eqn:Hlog.
    + destruct (log_feature_history_appends now feature_id "Field Updated"
                  (SText (fst kv))
                  (SText (string_or_empty (row_prop oldFeature (fst kv))))
                  (SText (string_or_empty (Some (snd kv))))
                  (Sql.bind changed_by_name) h Hkeys
                  (bind_truthy_not_null _ Hname))
        as (r & Hr & Hview & Hid).
      change (log_feature_history now
                (feature_update_entry now feature_id oldFeature
                   changed_by_name kv) h
              = (h ++ [r])%list) in Hr.
      rewrite Hr.
      destruct (IH (h ++ [r])%list (integer_keys_app h r Hkeys Hid))
        as (rows & Hrows & Hviews).
      exists (r :: rows). split.
      * rewrite Hrows, <- app_assoc. reflexivity.
      * rewrite decide_True by exact I.
        cbn [map]. rewrite Hview, Hviews. reflexivity.
    + destruct (IH h Hkeys) as (rows & Hrows & Hviews).
      exists rows. split; [exact Hrows|].
      rewrite decide_False by (intros H; exact H). exact Hviews.
Qed.

Lemma put_feature_history (now feature_id : string) (body : Body) (st : Store)
  (oldFeature : gmap string SqlValue) :
  Sql.select_one (has_feature_id feature_id) (upcoming_features st)
  = Some oldFeature ->
  feature_history (snd (put_feature now feature_id body st))
  = feature_update_log now feature_id oldFeature
      (Req.or_else (Req.field "changed_by_name" body) (JStr "Unknown"))
      (feature_updates body) (feature_history st).
Proof.
  intros Hold. unfold put_feature. fold (has_feature_id feature_id).
  rewrite Hold. fold (feature_updates body).
  destruct (is_empty _); [reflexivity|].
  destruct (Sql.update _ _ _ _) as [[t' n]|]; reflexivity.
Qed.

End HistoryFacts.




(** ** Versions: where the current flag stays unique *)

Section VersionInvariant.
Context `{RT : JsRuntime}.

Implicit Types (t : Table) (r : gmap string SqlValue).

Lemma count_where_map_le (q p : gmap string SqlValue -> bool)
  (g : gmap string SqlValue -> gmap string SqlValue) t :
  (forall r, r ∈ t -> q (g r) = true -> p r = true) ->
  (Sql.count_where q (map g t) <= Sql.count_where p t)%nat.
Proof.
  unfold Sql.count_where.
  induction t as [|r t IH]; intros H; [reflexivity|].
  cbn [map]. rewrite !filter_cons.
  assert (IH' : (length (filter (fun r => Is_true (q r)) (map g t))
                 <= length (filter (fun r => Is_true (p r)) t))%nat).
  { apply IH. intros r' Hr'. apply H. right. exact Hr'. }
  destruct (decide (Is_true (q (g r)))) as [Hq|Hq].
  - apply Is_true_true in Hq. rewrite (H r (list_elem_of_here _ _) Hq).
    rewrite decide_True by exact I. simpl. lia.
  - destruct (decide (Is_true (p r))); simpl; lia.
Qed.

Lemma count_where_map_same (p : gmap string SqlValue -> bool)
  (g : gmap string SqlValue -> gmap string SqlValue) t :
  (forall r, p (g r) = p r) ->
  Sql.count_where p (map g t) = Sql.count_where p t.
Proof.
  intros H. unfold Sql.count_where.
  induction t as [|r t IH]; [reflexivity|].
  cbn [map]. rewrite !filter_cons, H.
  destruct (decide (Is_true (p r))); simpl; rewrite IH; reflexivity.
Qed.

Lemma has_version_id_text (version_id : string) r :
  has_version_id version_id r
  = Sql.eqv (Sql.get r "version_id") (SText version_id).
Proof. reflexivity. Qed.

Lemma other_version_id_text (version_id : string) r :
  other_version_id version_id r
  = Sql.nev (Sql.get r "version_id") (SText version_id).
Proof. reflexivity. Qed.

(** A row with a text version id is the one named or another one. *)
Lemma named_or_other (version_id s : string) r :
  r !! "version_id" = Some (SText s) ->
  has_version_id version_id r = true \/ other_version_id version_id r = true.
Proof.
  intros Hs. rewrite has_version_id_text, other_version_id_text.
  unfold Sql.get. rewrite Hs. simpl.
  destruct (String.eqb s version_id); [left|right]; reflexivity.
Qed.

Lemma has_version_id_same (version_id : string) r r' :
  r' !! "version_id" = r !! "version_id" ->
  has_version_id version_id r' = has_version_id version_id r.
Proof.
  intros H. rewrite !has_version_id_text. unfold Sql.get. rewrite H. reflexivity.
Qed.

Lemma unset_not_current (now : string) r : is_current_row (unset now r) = false.
Proof.
  unfold is_current_row, unset, Sql.get.
  rewrite lookup_insert_ne by discriminate. rewrite lookup_insert_eq.
  reflexivity.
Qed.

Lemma unset_version_id (now : string) r :
  unset now r !! "version_id" = r !! "version_id".
Proof. unfold unset. rewrite !lookup_insert_ne by discriminate. reflexivity. Qed.

Lemma set_current_version_id (now : string) r :
  set_current now r !! "version_id" = r !! "version_id".
Proof.
  unfold set_current. rewrite !lookup_insert_ne by discriminate. reflexivity.
Qed.

Lemma unset_current_update (now : string) (p : gmap string SqlValue -> bool) t :
  unset_current now p t
  = Some (map (fun r => if p r then unset now r else r) t, Sql.count_where p t).
Proof.
  unfold unset_current.
  apply (update_ok Schema.versions p _
           [ ("is_current", sint 0);
             ("updated_at", Sql.coerce AffNumeric (SText now)) ]).
  - reflexivity.
  - intros r. unfold Sql.written_ok, Sql.apply_sets, Sql.get.
    cbn [fold_left forallb fst snd].
    rewrite lookup_insert_eq.
    rewrite lookup_insert_ne by discriminate. rewrite lookup_insert_eq.
    destruct (Sql.coerce AffNumeric (SText now)); reflexivity.
  - intros r t'. reflexivity.
Qed.

Lemma set_current_update (now : string) (p : gmap string SqlValue -> bool) t :
  Sql.update Schema.versions p
    [("is_current", sint 1); ("updated_at", SText now)] t
  = Some (map (fun r => if p r then set_current now r else r) t,
          Sql.count_where p t).
Proof.
  apply (update_ok Schema.versions p _
           [ ("is_current", sint 1);
             ("updated_at", Sql.coerce AffNumeric (SText now)) ]).
  - reflexivity.
  - intros r. unfold Sql.written_ok, Sql.apply_sets, Sql.get.
    cbn [fold_left forallb fst snd].
    rewrite lookup_insert_eq.
    rewrite lookup_insert_ne by discriminate. rewrite lookup_insert_eq.
    destruct (Sql.coerce AffNumeric (SText now)); reflexivity.
  - intros r t'. reflexivity.
Qed.

(** A rewrite of rows that keeps version_id keeps the table keyed. *)
Lemma keyed_map (g : gmap string SqlValue -> gmap string SqlValue) t :
  versions_keyed t ->
  (forall r, g r !! "version_id" = r !! "version_id") ->
  versions_keyed (map g t).
Proof.
  intros [Htext Huniq] Hg. split.
  - apply Forall_fmap. eapply Forall_impl; [exact Htext|].
    intros r [s Hs]. exists s. simpl. rewrite Hg. exact Hs.
  - intros s. rewrite count_where_map_same; [apply Huniq|].
    intros r. apply has_version_id_same, Hg.
Qed.

Lemma keyed_text t r :
  versions_keyed t -> r ∈ t -> exists s, r !! "version_id" = Some (SText s).
Proof.
  intros [Htext _] Hr. rewrite Forall_forall in Htext. apply Htext, Hr.
Qed.

(** *** Where the assignments of a dynamic UPDATE come from *)

Lemma column_ident (sch : Schema) (name : string) (c : Column) :
  Sql.column sch name = Some c -> Sql.ident_eq (col_name c) name = true.
Proof. unfold Sql.column. intros H. apply find_some in H. apply H. Qed.

Lemma resolve_sets_origin (sch : Schema) (sets rs : list (string * SqlValue))
  (c : string) (x : SqlValue) :
  Sql.resolve_sets sch sets = Some rs ->
  (c, x) ∈ rs ->
  exists (k : string) (v : SqlValue) (col : Column),
    (k, v) ∈ sets /\ Sql.column sch k = Some col
    /\ c = col_name col /\ x = Sql.coerce (col_aff col) v.
Proof.
  revert rs. induction sets as [|[k v] sets IH]; intros rs.
  - intros [= <-] H. inversion H.
  - simpl. destruct (Sql.column sch k) as [col|] eqn:Hcol; [|discriminate].
    destruct (Sql.resolve_sets sch sets) as [rs'|]; [|discriminate].
    intros [= <-] H. apply elem_of_cons in H as [Heq|Hin].
    + injection Heq as -> ->. exists k, v, col.
      split; [left|]. repeat split. exact Hcol.
    + destruct (IH rs' eq_refl Hin) as (k' & v' & col' & Hk & Hc & Hn & Hx).
      exists k', v', col'. split; [right; exact Hk|]. repeat split; assumption.
Qed.

(** The value a column has after the assignments is one of them, or the
    one it had. *)
Lemma apply_sets_lookup (rs : list (string * SqlValue)) r (c : string)
  (x : SqlValue) :
  Sql.apply_sets rs r !! c = Some x ->
  (c, x) ∈ rs \/ ((c ∉ map fst rs) /\ r !! c = Some x).
Proof.
  revert r. induction rs as [|[c0 v0] rs IH]; intros r H.
  - right. split; [intros Hin; inversion Hin|exact H].
  - rewrite apply_sets_cons in H.
    destruct (IH _ H) as [Hin|[Hnot Hr]].
    + left. right. exact Hin.
    + destruct (decide (c0 = c)) as [->|Hne].
      * rewrite lookup_insert_eq in Hr. injection Hr as ->. left. left.
      * rewrite lookup_insert_ne in Hr by exact Hne.
        right. split; [|exact Hr].
        simpl. intros [Heq|Hin]%elem_of_cons; [congruence|contradiction].
Qed.

Lemma dynamic_sets_origin (skipped json_fields : list string) (updates : Body)
  (k : string) (x : SqlValue) :
  (k, x) ∈ dynamic_sets skipped json_fields updates ->
  exists v, (k, v) ∈ updates /\ Req.mem k skipped = false
            /\ x = bound_value json_fields k v.
Proof.
  unfold dynamic_sets. intros H. apply list_elem_of_In, in_flat_map in H.
  destruct H as ([k' v] & Hin & Hx). simpl in Hx.
  destruct (Req.mem k' skipped) eqn:Hk; [contradiction|].
  destruct Hx as [[= <- <-]|[]].
  exists v. split; [apply list_elem_of_In, Hin|]. split; [exact Hk|reflexivity].
Qed.

Lemma field_of_member (updates : Body) (k : string) (v : JsValue) :
  NoDup (map fst updates) -> (k, v) ∈ updates -> Req.field k updates = Some v.
Proof.
  induction updates as [|[k' v'] updates IH]; intros Hnd Hin; [inversion Hin|].
  simpl in Hnd. apply NoDup_cons in Hnd as [Hk' Hnd].
  apply elem_of_cons in Hin as [[= <- <-]|Hin]; simpl.
  - rewrite String.eqb_refl. reflexivity.
  - destruct (String.eqb k' k) eqn:E; [|apply IH; assumption].
    apply String.eqb_eq in E. subst k'. exfalso. apply Hk'.
    apply list_elem_of_fmap. exists (k, v). split; [reflexivity|exact Hin].
Qed.

Lemma canon_zero (k : nat) : Js.canon 0 k = (0, O).
Proof. induction k as [|k IH]; [reflexivity|exact IH]. Qed.

(** A falsy value never stores an is_current of 1. *)
Lemma falsy_not_current (v : JsValue) :
  Js.truthy v = false ->
  Sql.eqv (Sql.coerce AffNumeric (Sql.bind v)) (sint 1) = false.
Proof.
  destruct v as [|b|m k|s|items|fields]; simpl; intros Hv;
    try discriminate; try reflexivity.
  - subst b. reflexivity.
  - apply negb_false_iff, Z.eqb_eq in Hv. subst m.
    rewrite canon_zero. reflexivity.
  - destruct s; [reflexivity|discriminate].
Qed.

Lemma version_sets_origin (now : string) (updates : Body) (k : string)
  (x : SqlValue) :
  (k, x) ∈ version_sets now updates ->
  k = "updated_at"
  \/ exists v, (k, v) ∈ updates
               /\ Req.mem k ["version_id"; "id"; "created_at"] = false
               /\ x = bound_value version_json_fields k v.
Proof.
  unfold version_sets. intros [H|H]%elem_of_app.
  - right. apply dynamic_sets_origin in H. exact H.
  - left. apply list_elem_of_singleton in H. congruence.
Qed.

Lemma version_rs_keeps_id (now : string) (updates : Body)
  (rs : list (string * SqlValue)) :
  Sql.resolve_sets Schema.versions (version_sets now updates) = Some rs ->
  Forall (fun kv => exact_key (fst kv)) updates ->
  "version_id" ∉ map fst rs.
Proof.
  intros Hrs Hexact Hin.
  apply list_elem_of_fmap in Hin as ([c x] & Hc & Hin). simpl in Hc. subst c.
  destruct (resolve_sets_origin _ _ _ _ _ Hrs Hin)
    as (k & v & col & Hk & Hcol & Hname & _).
  apply column_ident in Hcol. rewrite <- Hname in Hcol.
  apply version_sets_origin in Hk as [->|(v0 & Hv0 & Hskip & _)].
  - discriminate Hcol.
  - rewrite Forall_forall in Hexact.
    destruct (Hexact _ Hv0) as [_ Hid]. simpl in Hid.
    rewrite (Hid Hcol) in Hskip. discriminate Hskip.
Qed.

Lemma version_rs_is_current (now : string) (updates : Body)
  (rs : list (string * SqlValue)) (x : SqlValue) :
  Sql.resolve_sets Schema.versions (version_sets now updates) = Some rs ->
  Forall (fun kv => exact_key (fst kv)) updates ->
  ("is_current", x) ∈ rs ->
  exists v, ("is_current", v) ∈ updates
            /\ x = Sql.coerce AffNumeric (Sql.bind v).
Proof.
  intros Hrs Hexact Hin.
  destruct (resolve_sets_origin _ _ _ _ _ Hrs Hin)
    as (k & v & col & Hk & Hcol & Hname & Hx).
  pose proof (column_ident _ _ _ Hcol) as Hid. rewrite <- Hname in Hid.
  apply version_sets_origin in Hk as [->|(v0 & Hv0 & _ & Hbound)].
  - discriminate Hid.
  - rewrite Forall_forall in Hexact.
    destruct (Hexact _ Hv0) as [Hcur _]. simpl in Hcur.
    specialize (Hcur Hid). subst k.
    exists v0. split; [exact Hv0|].
    assert (Hc : col = Schema.num_def "is_current" 0).
    { change (Sql.column Schema.versions "is_current")
        with (Some (Schema.num_def "is_current" 0)) in Hcol.
      congruence. }
    subst col. rewrite Hx, Hbound. reflexivity.
Qed.

(** *** One request at a time *)

Lemma current_after_unset (version_id : string)
  (g1 : gmap string SqlValue -> gmap string SqlValue) t :
  versions_keyed t ->
  (forall r, r ∈ t -> is_current_row (g1 r) = true ->
             has_version_id version_id r = true) ->
  (Sql.count_where is_current_row (map g1 t) <= 1)%nat.
Proof.
  intros [Htext Huniq] Hg1.
  etransitivity; [|apply (Huniq version_id)].
  apply count_where_map_le. exact Hg1.
Qed.

Lemma current_after_targeted (version_id : string)
  (g1 g2 : gmap string SqlValue -> gmap string SqlValue) t :
  versions_keyed t ->
  (forall r, g1 r !! "version_id" = r !! "version_id") ->
  (forall r, r ∈ t -> is_current_row (g1 r) = true ->
             has_version_id version_id r = true) ->
  (forall r1, has_version_id version_id r1 = false -> g2 r1 = r1) ->
  (Sql.count_where is_current_row (map g2 (map g1 t)) <= 1)%nat.
Proof.
  intros Hkeyed Hid Hg1 Hg2.
  destruct Hkeyed as [Htext Huniq].
  etransitivity; [|apply (Huniq version_id)].
  rewrite <- (count_where_map_same (has_version_id version_id) g1 t)
    by (intros r; apply has_version_id_same, Hid).
  apply count_where_map_le.
  intros r1 Hr1 Hcur.
  destruct (has_version_id version_id r1) eqn:E; [reflexivity|].
  rewrite (Hg2 r1 E) in Hcur.
  apply list_elem_of_fmap in Hr1 as (r & -> & Hr).
  rewrite (has_version_id_same version_id r (g1 r) (Hid r)) in E.
  rewrite (Hg1 r Hr Hcur) in E. discriminate E.
Qed.

Lemma set_current_step (now version_id : string) (st : Store) :
  version_inv st -> version_inv (snd (put_version_set_current now version_id st)).
Proof.
  intros [Hkeyed _]. unfold put_version_set_current.
  rewrite unset_current_update, set_current_update.
  fold (has_version_id version_id).
  assert (Hinv : version_inv
            (set_versions
               (map (fun r => if has_version_id version_id r
                              then set_current now r else r)
                  (map (fun r => unset now r) (versions st))) st)).
  { split; cbn [versions set_versions].
    - apply keyed_map; [apply keyed_map|].
      + exact Hkeyed.
      + intros r. apply unset_version_id.
      + intros r. destruct (has_version_id version_id r); [|reflexivity].
        apply set_current_version_id.
    - unfold current_count. cbn [versions set_versions].
      apply (current_after_targeted version_id).
      + exact Hkeyed.
      + intros r. apply unset_version_id.
      + intros r _ Hcur. rewrite unset_not_current in Hcur. discriminate.
      + intros r1 ->. reflexivity. }
  destruct (Sql.count_where _ _); exact Hinv.
Qed.

Lemma put_version_step (now version_id : string) (updates : Body) (st : Store) :
  version_inv st ->
  NoDup (map fst updates) ->
  Forall (fun kv => exact_key (fst kv)) updates ->
  version_inv (snd (put_version now version_id updates st)).
Proof.
  intros [Hkeyed Hcount] Hnd Hexact. unfold put_version.
  fold (version_sets now updates). fold (has_version_id version_id).
  fold (other_version_id version_id).
  destruct (Js.truthy_opt (Req.field "is_current" updates)) eqn:Htruthy.
  - (* the other versions are unset first *)
    rewrite unset_current_update.
    set (g1 := fun r => if other_version_id version_id r then unset now r else r).
    assert (Hid1 : forall r, g1 r !! "version_id" = r !! "version_id").
    { intros r. unfold g1. destruct (other_version_id version_id r);
        [apply unset_version_id|reflexivity]. }
    assert (Hcur1 : forall r, r ∈ versions st -> is_current_row (g1 r) = true ->
                              has_version_id version_id r = true).
    { intros r Hr. unfold g1.
      destruct (other_version_id version_id r) eqn:Hother.
      - rewrite unset_not_current. discriminate.
      - intros _. destruct (keyed_text _ _ Hkeyed Hr) as [s Hs].
        destruct (named_or_other version_id s r Hs) as [H|H]; [exact H|].
        congruence. }
    assert (Hinv1 : version_inv (set_versions (map g1 (versions st)) st)).
    { split; cbn [versions set_versions].
      - apply keyed_map; assumption.
      - unfold current_count. cbn [versions set_versions].
        apply (current_after_unset version_id); assumption. }
    destruct (is_empty _); [exact Hinv1|].
    destruct (Sql.update _ _ _ _) as [[t' n]|] eqn:Hupd; [|exact Hinv1].
    apply update_Some in Hupd as (rs & Hrs & -> & _).
    assert (Hinv2 : version_inv
              (set_versions
                 (map (fun r => if has_version_id version_id r
                                then Sql.apply_sets rs r else r)
                    (map g1 (versions st))) st)).
    { split; cbn [versions set_versions].
      - apply keyed_map; [apply keyed_map; assumption|].
        intros r. destruct (has_version_id version_id r); [|reflexivity].
        apply apply_sets_other, (version_rs_keeps_id now updates rs Hrs Hexact).
      - unfold current_count. cbn [versions set_versions].
        apply (current_after_targeted version_id); try assumption.
        intros r1 ->. reflexivity. }
    destruct n; exact Hinv2.
  - (* the flag is not asked for *)
    assert (Hinv1 : version_inv (set_versions (versions st) st)).
    { split; [exact Hkeyed|exact Hcount]. }
    destruct (is_empty _); [exact Hinv1|].
    destruct (Sql.update _ _ _ _) as [[t' n]|] eqn:Hupd; [|exact Hinv1].
    apply update_Some in Hupd as (rs & Hrs & -> & _).
    assert (Hinv2 : version_inv
              (set_versions
                 (map (fun r => if has_version_id version_id r
                                then Sql.apply_sets rs r else r)
                    (versions st)) st)).
    { split; cbn [versions set_versions].
      - apply keyed_map; [exact Hkeyed|].
        intros r. destruct (has_version_id version_id r); [|reflexivity].
        apply apply_sets_other, (version_rs_keeps_id now updates rs Hrs Hexact).
      - unfold current_count. cbn [versions set_versions].
        etransitivity; [|exact Hcount].
        apply count_where_map_le. intros r _.
        destruct (has_version_id version_id r); [|intros H; exact H].
        unfold is_current_row at 1. unfold Sql.get at 1.
        destruct (Sql.apply_sets rs r !! "is_current") as [x|] eqn:Hx;
          [|discriminate].
        simpl. intros Heqv.
        apply apply_sets_lookup in Hx as [Hin|[_ Hr]].
        + destruct (version_rs_is_current now updates rs x Hrs Hexact Hin)
            as (v & Hv & ->).
          rewrite (field_of_member updates "is_current" v Hnd Hv) in Htruthy.
          simpl in Htruthy.
          rewrite (falsy_not_current v Htruthy) in Heqv. discriminate.
        + unfold is_current_row, Sql.get. rewrite Hr. exact Heqv. }
    destruct n; exact Hinv2.
Qed.

Lemma insert_Some (sch : Schema) (now : string)
  (vals : list (string * SqlValue)) t t' :
  Sql.insert sch now vals t = Some t' ->
  exists rs,
    Sql.resolve_sets sch vals = Some rs
    /\ t' = (t ++ [Sql.new_row sch now rs t])%list
    /\ Sql.unique_ok sch (map col_name (sch_cols sch))
          (Sql.new_row sch now rs t) t' = true.
Proof.
  unfold Sql.insert.
  destruct (Sql.resolve_sets sch vals) as [rs|]; [|discriminate].
  destruct (forallb _ _ && Sql.unique_ok _ _ _ _) eqn:Hchk; [|discriminate].
  intros [= <-]. exists rs. repeat split.
  apply andb_true_iff in Hchk. apply Hchk.
Qed.

(** The row POST /api/versions inserts, when the INSERT succeeds. *)
Lemma versions_insert_row (now version_id : string) (c : Z)
  (v2 v3 v4 v5 v6 v8 v9 v10 v11 : SqlValue) t t' :
  Sql.insert Schema.versions now
    [ ("version_id", SText version_id); ("version_number", v2);
      ("version_name", v3); ("description", v4); ("release_date", v5);
      ("status", v6); ("is_current", sint c); ("features", v8);
      ("bug_fixes", v9); ("known_issues", v10); ("created_by", v11) ] t
  = Some t' ->
  exists r,
    t' = (t ++ [r])%list
    /\ r !! "version_id" = Some (SText version_id)
    /\ Sql.get r "is_current" = sint c
    /\ Sql.count_where (has_version_id version_id) t = O.
Proof.
  intros (rs & Hrs & -> & Huniq)%insert_Some.
  assert (Hrs' : rs = [ ("version_id", SText version_id);
                        ("version_number", Sql.coerce AffText v2);
                        ("version_name", Sql.coerce AffText v3);
                        ("description", Sql.coerce AffText v4);
                        ("release_date", Sql.coerce AffNumeric v5);
                        ("status", Sql.coerce AffText v6);
                        ("is_current", sint c);
                        ("features", Sql.coerce AffText v8);
                        ("bug_fixes", Sql.coerce AffText v9);
                        ("known_issues", Sql.coerce AffText v10);
                        ("created_by", Sql.coerce AffText v11) ]).
  { change (Sql.resolve_sets Schema.versions _) with
      (Some [ ("version_id", SText version_id);
              ("version_number", Sql.coerce AffText v2);
              ("version_name", Sql.coerce AffText v3);
              ("description", Sql.coerce AffText v4);
              ("release_date", Sql.coerce AffNumeric v5);
              ("status", Sql.coerce AffText v6);
              ("is_current", sint c);
              ("features", Sql.coerce AffText v8);
              ("bug_fixes", Sql.coerce AffText v9);
              ("known_issues", Sql.coerce AffText v10);
              ("created_by", Sql.coerce AffText v11) ]) in Hrs.
    congruence. }
  subst rs.
  set (r := Sql.new_row Schema.versions now _ t) in *.
  assert (Hid : r !! "version_id" = Some (SText version_id))
    by (vm_compute; reflexivity).
  assert (Hcur : Sql.get r "is_current" = sint c) by (vm_compute; reflexivity).
  exists r. split; [reflexivity|]. split; [exact Hid|]. split; [exact Hcur|].
  unfold Sql.unique_ok in Huniq. cbn [forallb sch_unique Schema.versions] in Huniq.
  apply andb_true_iff in Huniq as [_ Huniq].
  apply andb_true_iff in Huniq as [Huniq _].
  change (existsb (Sql.ident_eq "version_id")
            (map col_name (sch_cols Schema.versions))) with true in Huniq.
  assert (Hget : Sql.get r "version_id" = SText version_id)
    by (unfold Sql.get; rewrite Hid; reflexivity).
  rewrite Hget in Huniq. cbn [negb orb Sql.is_null] in Huniq.
  apply Nat.leb_le in Huniq.
  change (fun r' => Sql.eqv (Sql.get r' "version_id") (SText version_id))
    with (has_version_id version_id) in Huniq.
  rewrite count_where_app in Huniq.
  assert (Hone : Sql.count_where (has_version_id version_id) [r] = 1%nat).
  { unfold Sql.count_where. rewrite filter_cons, filter_nil.
    rewrite has_version_id_text, Hget. simpl. rewrite String.eqb_refl.
    reflexivity. }
  lia.
Qed.

Lemma keyed_insert (version_id : string) t r :
  versions_keyed t ->
  r !! "version_id" = Some (SText version_id) ->
  Sql.count_where (has_version_id version_id) t = O ->
  versions_keyed (t ++ [r])%list.
Proof.
  intros [Htext Huniq] Hid Hfresh. split.
  - apply Forall_app. split; [exact Htext|].
    apply Forall_cons. split; [exists version_id; exact Hid|apply Forall_nil_2].
  - intros s. rewrite count_where_app.
    destruct (String.eqb version_id s) eqn:E.
    + apply String.eqb_eq in E. subst s. rewrite Hfresh.
      apply count_where_one.
    + assert (Hnone : Sql.count_where (has_version_id s) [r] = O).
      { unfold Sql.count_where. rewrite filter_cons, filter_nil.
        rewrite has_version_id_text. unfold Sql.get. rewrite Hid. simpl.
        rewrite E. reflexivity. }
      rewrite Hnone, Nat.add_0_r. apply Huniq.
Qed.

Lemma current_insert (c : Z) t r :
  Sql.get r "is_current" = sint c ->
  (Sql.count_where is_current_row (t ++ [r])
   <= Sql.count_where is_current_row t + (if (c =? 1)%Z then 1 else 0))%nat.
Proof.
  intros Hc. rewrite count_where_app.
  apply Nat.add_le_mono_l.
  assert (E : is_current_row r = (c =? 1)%Z).
  { unfold is_current_row. rewrite Hc. unfold sint, Sql.eqv. simpl.
    rewrite Z.mul_1_r. reflexivity. }
  unfold Sql.count_where. rewrite filter_cons, filter_nil.
  destruct (decide (Is_true (is_current_row r))) as [H|H];
    rewrite E in H; destruct (c =? 1)%Z; simpl; try lia.
  contradiction.
Qed.

Lemma unset_all_none (now : string) t :
  Sql.count_where is_current_row (map (fun r => unset now r) t) = O.
Proof.
  unfold Sql.count_where. induction t as [|r t IH]; [reflexivity|].
  cbn [map]. rewrite filter_cons, unset_not_current.
  rewrite decide_False by (intros H; exact H). exact IH.
Qed.

Lemma post_version_step (now : string) (body : Body) (st : Store) :
  version_inv st -> version_inv (snd (post_version now body st)).
Proof.
  intros [Hkeyed Hcount]. unfold post_version.
  destruct (Req.field "version_number" body) as [[| | |version_number| |]|];
    try (split; assumption).
  destruct (Js.truthy_opt (Req.field "is_current" body)).
  - rewrite unset_current_update.
    set (t1 := map _ (versions st)).
    assert (Hkeyed1 : versions_keyed t1).
    { apply keyed_map; [exact Hkeyed|]. intros r. apply unset_version_id. }
    assert (Hnone : Sql.count_where is_current_row t1 = O)
      by apply unset_all_none.
    destruct (Sql.insert _ _ _ _) as [t'|] eqn:Hins.
    + apply versions_insert_row in Hins as (r & -> & Hid & Hcur & Hfresh).
      split; cbn [snd versions set_versions].
      * apply (keyed_insert _ _ _ Hkeyed1 Hid Hfresh).
      * unfold current_count. cbn [versions set_versions].
        pose proof (current_insert 1 t1 r Hcur) as H. simpl in H. lia.
    + split; cbn [snd versions set_versions]; [exact Hkeyed1|].
      unfold current_count. cbn [versions set_versions]. lia.
  - destruct (Sql.insert _ _ _ _) as [t'|] eqn:Hins.
    + apply versions_insert_row in Hins as (r & -> & Hid & Hcur & Hfresh).
      split; cbn [snd versions set_versions].
      * apply (keyed_insert _ _ _ Hkeyed Hid Hfresh).
      * unfold current_count. cbn [versions set_versions].
        pose proof (current_insert 0 (versions st) r Hcur) as H. simpl in H.
        unfold current_count in Hcount. lia.
    + split; assumption.
Qed.

Lemma run_version_op_step (now : string) (op : VersionOp) (st : Store) :
  plain_update op -> version_inv st -> version_inv (run_version_op now op st).
Proof.
  destruct op as [body|version_id updates|version_id]; simpl; intros Hplain Hinv.
  - apply post_version_step, Hinv.
  - destruct Hplain as [Hnd Hexact]. apply put_version_step; assumption.
  - apply set_current_step, Hinv.
Qed.

(** Creates, set-currents and updates whose keys spell is_current and
    version_id as the schema does keep at most one version current. *)
Lemma versions_stay_unique (ops : list (string * VersionOp)) (st : Store) :
  Forall (fun op => plain_update (snd op)) ops ->
  versions_keyed (versions st) ->
  (current_count st <= 1)%nat ->
  (current_count (run_version_ops ops st) <= 1)%nat.
Proof.
  intros Hops Hkeyed Hcount.
  assert (Hinv : version_inv st) by (split; assumption).
  clear Hkeyed Hcount. unfold run_version_ops.
  revert st Hinv. induction Hops as [|[now op] ops Hop _ IH]; intros st Hinv.
  - apply Hinv.
  - simpl. apply IH, run_version_op_step; assumption.
Qed.

End VersionInvariant.

Lemma sample_versions_keyed : versions_keyed (versions Sample.with_versions).
Proof.
  split.
  - repeat (apply Forall_cons; split; [eexists; reflexivity|]).
    apply Forall_nil_2.
  - intros s. unfold Sql.count_where. cbn [versions Sample.with_versions set_versions].
    rewrite !filter_cons, filter_nil.
    change (has_version_id s (Sample.version 1 "VER_1_0" "1.0" "First" 1))
      with (String.eqb "VER_1_0" s).
    change (has_version_id s (Sample.version 2 "VER_2_0" "2.0" "Second" 0))
      with (String.eqb "VER_2_0" s).
    destruct (String.eqb "VER_1_0" s) eqn:E1;
      destruct (String.eqb "VER_2_0" s) eqn:E2; simpl; try lia.
    apply String.eqb_eq in E1, E2. congruence.
Qed.

Lemma sample_requests_plain :
  Forall (fun op => plain_update (snd op)) Sample.version_requests.
Proof.
  repeat (apply Forall_cons; split); try apply Forall_nil_2; try exact I.
  split.
  - apply NoDup_singleton.
  - apply Forall_cons. split; [|apply Forall_nil_2].
    split; [reflexivity|discriminate].
Qed.

(** The three sample requests end with version 1.0 as the only current
    one. *)
Lemma sample_requests_one_current :
  (current_count (@run_version_ops StdJson.runtime Sample.version_requests
                    Sample.with_versions) <= 1)%nat
  /\ map (fun r => (Sql.get r "version_id", Sql.get r "is_current"))
         (versions (@run_version_ops StdJson.runtime Sample.version_requests
                      Sample.with_versions))
     = [ (SText "VER_1_0", sint 1); (SText "VER_2_0", sint 0);
         (SText "VER_3_0", sint 0) ].
Proof.
  split.
  - apply versions_stay_unique.
    + exact sample_requests_plain.
    + exact sample_versions_keyed.
    + vm_compute. lia.
  - vm_compute. reflexivity.
Qed.
